(** * AssignTAs: the tiered TA-to-course assignment of [optimize.py]

    A shallow embedding of [makeRandData]'s cost table and of [solve], the
    loop that builds one bipartite min-cost-flow network per priority tier
    (PhDs, MScs, others), hands it to the flow solver, and subtracts the
    assignments found from the shared array of course slots.

    Conventions.
    - Loop counters and sizes ([nGroup], [numClasses], [iStudent], ...) are
      [nat]; [range n] is [seq 0 n].
    - [spots] and [avail] are arrays of 64-bit integers ([np.int_]); their
      elements are [Z] and the arithmetic done on them wraps ([wrap64]).
    - Preference costs are the numbers of [makeRandData]'s table, among them
      [np.iinfo(np.int32).max / 2 - 1], which is a true division: they are
      rationals ([Q]).  Every value the table can produce, and every sum of
      two of them, is a dyadic number far below 2^53, so the rational
      arithmetic is exactly the arithmetic of the program.
    - Indexing a sequence out of range raises [IndexError], and handing
      the solver's interface a cost that is not a 64-bit integer raises
      [TypeError]; the loops run in the [result] monad. A number is
      represented by its value: one that is not whole can only be a float.
      Outside the table a float can be whole and a sum can be rounded;
      the properties that depend on the type of a cost or on the exactness
      of a sum are stated for preference entries of the table
      ([table_costs]).
    - The flow solver is a library outside the program: it is a variable of
      the section that defines [solve]. *)

From Stdlib Require Import ZArith QArith Qround Lia.
From stdpp Require Import base numbers option list gmap.

Local Open Scope Z_scope.

(** ** Exceptions and sequences *)

Inductive Exception : Type := IndexError | TypeError.

Inductive result (A : Type) : Type :=
| Ok (a : A)
| Raise (e : Exception).
Arguments Ok {A} a.
Arguments Raise {A} e.

Definition bind {A B : Type} (r : result A) (k : A -> result B) : result B :=
  match r with
  | Ok a => k a
  | Raise e => Raise e
  end.

Notation "x <- e ;; k" := (bind e (fun x => k))
  (at level 100, e at next level, right associativity).

(** [for x in xs: s = body s x], stopping at the first exception. *)
Fixpoint for_each {St X : Type} (xs : list X) (body : St -> X -> result St)
  (s : St) : result St :=
  match xs with
  | [] => Ok s
  | x :: xs' => s' <- body s x ;; for_each xs' body s'
  end.

Definition range (n : nat) : list nat := seq 0 n.

(** [l[i]] for a non-negative index. *)
Definition getitem {A : Type} (l : list A) (i : nat) : result A :=
  match l !! i with
  | Some x => Ok x
  | None => Raise IndexError
  end.

(** [l[a:b]] for [0 <= a]: the slice is cut short at the end of [l]. *)
Definition slice {A : Type} (l : list A) (a b : nat) : list A :=
  take (b - a) (drop a l).

(** The position an integer index denotes in a sequence of length [len]:
    negative indices count from the end. *)
Definition py_index (len : nat) (i : Z) : result nat :=
  if (0 <=? i) && (i <? Z.of_nat len) then Ok (Z.to_nat i)
  else if (- Z.of_nat len <=? i) && (i <? 0) then Ok (Z.to_nat (Z.of_nat len + i))
  else Raise IndexError.

(** 64-bit two's complement wrap-around. *)
Definition wrap64 (z : Z) : Z := (z + 2 ^ 63) mod 2 ^ 64 - 2 ^ 63.

(** [a[i] -= 1] on an array of 64-bit integers. *)
Definition decrement (a : list Z) (i : Z) : result (list Z) :=
  k <- py_index (length a) i ;;
  x <- getitem a k ;;
  Ok (<[k := wrap64 (x - 1)]> a).

(** ** The cost table of [makeRandData] *)

Inductive Rank : Type :=
| MostWanted | Wanted | SomewhatWanted | Willing | Unwilling.

Definition int32_max : Z := 2 ^ 31 - 1.

(** [costs = [0, 25, 50, 100, np.iinfo(np.int32).max /2 -1]] *)
Definition costs : list Q :=
  [0; 25; 50; 100; inject_Z int32_max / 2 - 1]%Q.

Definition rank_index (r : Rank) : nat :=
  match r with
  | MostWanted => 0
  | Wanted => 1
  | SomewhatWanted => 2
  | Willing => 3
  | Unwilling => 4
  end%nat.

(** [costs[i]], as in [lambda i: costs[i]]. *)
Definition rankToCost (r : Rank) : Q := nth (rank_index r) costs 0%Q.

(** ** The flow network ([SimpleMinCostFlow]) *)

Record Arc : Type := mkArc {
  arc_tail : nat;
  arc_head : nat;
  arc_capacity : Z;
  arc_unit_cost : Q
}.

Record SimpleMinCostFlow : Type := mkSMCF {
  smcf_arcs : list Arc;
  smcf_supply : gmap nat Z
}.

Definition new_smcf : SimpleMinCostFlow := mkSMCF [] ∅.

(** Whether a number can be passed where the solver's interface takes a
    64-bit integer: a float, or an integer out of that range, cannot. *)
Definition is_int64 (q : Q) : bool :=
  (Qden (Qred q) =? 1)%positive
  && (- 2 ^ 63 <=? Qnum (Qred q)) && (Qnum (Qred q) <? 2 ^ 63).

(** The interface refuses a cost that is not a 64-bit integer with
    [TypeError]. *)
Definition add_arc_with_capacity_and_unit_cost (g : SimpleMinCostFlow)
  (tail head : nat) (capacity : Z) (unit_cost : Q) : result SimpleMinCostFlow :=
  if is_int64 unit_cost
  then Ok (mkSMCF (smcf_arcs g ++ [mkArc tail head capacity unit_cost])
             (smcf_supply g))
  else Raise TypeError.

Definition set_node_supply (g : SimpleMinCostFlow) (node : nat) (s : Z)
  : SimpleMinCostFlow :=
  mkSMCF (smcf_arcs g) (<[node := s]> (smcf_supply g)).

Definition num_arcs (g : SimpleMinCostFlow) : nat := length (smcf_arcs g).

(** [smcf.supply(node)] for a node that was given a supply, which the nodes
    [solve] asks for always were. For any other node the library reads past
    its vector; the zero here stands for a value that is not determined, and
    no property is stated of it. *)
Definition supply (g : SimpleMinCostFlow) (node : nat) : Z :=
  default 0 (smcf_supply g !! node).

Inductive Status : Type :=
| NOT_SOLVED | OPTIMAL | FEASIBLE | INFEASIBLE | UNBALANCED
| BAD_RESULT | BAD_COST_RANGE | BAD_CAPACITY_RANGE.

Global Instance Status_eq_dec : EqDecision Status.
Proof. solve_decision. Defined.

(** What the program reads back after [solve_max_flow_with_min_cost]. *)
Record Solution : Type := mkSolution {
  sol_status : Status;
  sol_flow : nat -> Z;
  sol_optimal_cost : Z
}.

(** ** Configuration and results *)

Record Config : Type := mkConfig {
  numClasses : nat;
  numPhDs : nat;
  numMSCs : nat;
  numOther : nat;
  spots : list Z;
  avail : list Z;
  studentPrefs : list Q;
  coursePrefs : list Q
}.

(** One line [TA %d assigned to course %d.  Cost = %d]. *)
Record Assignment : Type := mkAssignment {
  asg_ta : nat;
  asg_course : Z;
  asg_cost : Q
}.

(** What one tier prints. *)
Record TierResult : Type := mkTierResult {
  tr_status : Status;
  tr_total_cost : option Z;
  tr_assignments : list Assignment;
  tr_unused : list (nat * Z);
  tr_spots : list Z
}.

(** The run as a whole: the tiers that printed, the slots array at the end,
    and the exception that stopped the run, if any. *)
Record Run : Type := mkRun {
  run_tiers : list TierResult;
  run_spots : list Z;
  run_raised : option Exception
}.

(** ** Network construction (lines 93-103) *)

Definition Qltb (x y : Q) : bool := negb (Qle_bool y x).

Definition threshold : Q := 1000%Q.

(** [studentPrefs[iStudent*nGroup+iClass] + coursePrefs[iStudent*nGroup+iClass]] *)
Definition totalCost (studentPrefs coursePrefs : list Q)
  (nGroup iStudent iClass : nat) : result Q :=
  s <- getitem studentPrefs (iStudent * nGroup + iClass) ;;
  c <- getitem coursePrefs (iStudent * nGroup + iClass) ;;
  Ok (s + c)%Q.

(** The body of the inner loop (lines 97-99). *)
Definition class_body (studentPrefs coursePrefs : list Q)
  (nGroup iStudent : nat) (g : SimpleMinCostFlow) (iClass : nat)
  : result SimpleMinCostFlow :=
  tc <- totalCost studentPrefs coursePrefs nGroup iStudent iClass ;;
  if Qltb tc threshold
  then add_arc_with_capacity_and_unit_cost g iStudent (iClass + nGroup) 1 tc
  else Ok g.

Definition student_body (studentPrefs coursePrefs : list Q) (avail : list Z)
  (nGroup numClasses : nat) (g : SimpleMinCostFlow) (iStudent : nat)
  : result SimpleMinCostFlow :=
  g' <- for_each (range numClasses)
          (class_body studentPrefs coursePrefs nGroup iStudent) g ;;
  a <- getitem avail iStudent ;;
  Ok (set_node_supply g' iStudent a).

Definition course_body (spots : list Z) (nGroup : nat)
  (g : SimpleMinCostFlow) (iClass : nat) : result SimpleMinCostFlow :=
  s <- getitem spots iClass ;;
  Ok (set_node_supply g (iClass + nGroup) (wrap64 (-1 * s))).

Definition build_network (studentPrefs coursePrefs : list Q)
  (avail spots : list Z) (nGroup numClasses : nat) : result SimpleMinCostFlow :=
  g <- for_each (range nGroup)
         (student_body studentPrefs coursePrefs avail nGroup numClasses)
         new_smcf ;;
  for_each (range numClasses) (course_body spots nGroup) g.

(** ** Extraction (lines 107-129) *)

Record Extraction : Type := mkExtraction {
  ex_spots : list Z;
  ex_avail : list Z;
  ex_assignments : list Assignment
}.

Definition extract_body (g : SimpleMinCostFlow) (flow : nat -> Z)
  (nGroup : nat) (st : Extraction) (arc : nat) : result Extraction :=
  if 0 <? flow arc then
    a <- getitem (smcf_arcs g) arc ;;
    let iClass := Z.of_nat (arc_head a) - Z.of_nat nGroup in
    spots' <- decrement (ex_spots st) iClass ;;
    avail' <- decrement (ex_avail st) (Z.of_nat (arc_tail a)) ;;
    Ok (mkExtraction spots' avail'
          (ex_assignments st ++ [mkAssignment (arc_tail a) iClass (arc_unit_cost a)]))
  else Ok st.

Definition report_body (g : SimpleMinCostFlow) (avail : list Z)
  (out : list (nat * Z)) (iStudent : nat) : result (list (nat * Z)) :=
  a <- getitem avail iStudent ;;
  if 0 <? a then Ok (out ++ [(iStudent, supply g iStudent)]) else Ok out.

(** [numTAs = [ config['numPhDs'], config['numMSCs'], config['numOther'] ]] *)
Definition numTAs (cfg : Config) : list nat :=
  [numPhDs cfg; numMSCs cfg; numOther cfg].

(** [totTAs = config['numPhDs']+config['numMSCs']+config['numOther']] *)
Definition totTAs (cfg : Config) : nat :=
  (numPhDs cfg + numMSCs cfg + numOther cfg)%nat.

Section Solve.

(** [smcf.solve_max_flow_with_min_cost()] and the accessors read after it. *)
Variable solve_max_flow_with_min_cost : SimpleMinCostFlow -> Solution.

(** The body of [for nGroup in numTAs], up to [print( spots )]. *)
Definition solve_tier (cfg : Config) (iStart nGroup : nat) (spots : list Z)
  : result TierResult :=
  let avail := slice (avail cfg) iStart (iStart + nGroup) in
  let studentPrefs := slice (studentPrefs cfg) (iStart * numClasses cfg)
                        ((iStart + nGroup) * numClasses cfg) in
  let coursePrefs := slice (coursePrefs cfg) (iStart * numClasses cfg)
                       ((iStart + nGroup) * numClasses cfg) in
  g <- build_network studentPrefs coursePrefs avail spots nGroup (numClasses cfg) ;;
  let sol := solve_max_flow_with_min_cost g in
  if decide (sol_status sol = OPTIMAL) then
    st <- for_each (range (num_arcs g)) (extract_body g (sol_flow sol) nGroup)
            (mkExtraction spots avail []) ;;
    unused <- for_each (range nGroup) (report_body g (ex_avail st)) [] ;;
    Ok (mkTierResult (sol_status sol) (Some (sol_optimal_cost sol))
          (ex_assignments st) unused (ex_spots st))
  else Ok (mkTierResult (sol_status sol) None [] [] spots).

(** [for nGroup in numTAs: ...; iStart += nGroup] *)
Fixpoint solve_tiers (cfg : Config) (groups : list nat) (iStart : nat)
  (spots : list Z) : Run :=
  match groups with
  | [] => mkRun [] spots None
  | nGroup :: rest =>
      match solve_tier cfg iStart nGroup spots with
      | Raise e => mkRun [] spots (Some e)
      | Ok tr =>
          let r := solve_tiers cfg rest (iStart + nGroup) (tr_spots tr) in
          mkRun (tr :: run_tiers r) (run_spots r) (run_raised r)
      end
  end.

Definition solve (cfg : Config) : Run :=
  solve_tiers cfg (numTAs cfg) 0 (spots cfg).

End Solve.

(** ** The solver's side of the contract

    [solve_max_flow_with_min_cost] sends as much flow as the supplies,
    demands and capacities allow. What the program relies on is that the
    flow it reads back is feasible: within each arc's capacity, and at each
    node the net outflow lies between zero and the node's supply (a supply
    node sends at most its supply, a demand node takes at most its demand). *)

Fixpoint flow_sum (sel : Arc -> bool) (flow : nat -> Z) (k : nat)
  (arcs : list Arc) : Z :=
  match arcs with
  | [] => 0
  | a :: rest => (if sel a then flow k else 0) + flow_sum sel flow (S k) rest
  end.

Definition leaves (node : nat) (a : Arc) : bool := Nat.eqb (arc_tail a) node.
Definition enters (node : nat) (a : Arc) : bool := Nat.eqb (arc_head a) node.

Definition net_outflow (g : SimpleMinCostFlow) (flow : nat -> Z) (node : nat) : Z :=
  flow_sum (leaves node) flow 0 (smcf_arcs g)
  - flow_sum (enters node) flow 0 (smcf_arcs g).

Definition feasible_flow (g : SimpleMinCostFlow) (flow : nat -> Z) : Prop :=
  (forall k a, smcf_arcs g !! k = Some a -> 0 <= flow k <= arc_capacity a) /\
  (forall node,
      (0 <= supply g node -> 0 <= net_outflow g flow node <= supply g node) /\
      (supply g node <= 0 -> supply g node <= net_outflow g flow node <= 0)).

Definition solver_contract (solver : SimpleMinCostFlow -> Solution) : Prop :=
  forall g, sol_status (solver g) = OPTIMAL -> feasible_flow g (sol_flow (solver g)).

(** ** What the claims count *)

(** The arcs that carry flow, in arc order, from arc number [k] on. *)
Fixpoint used_arcs (flow : nat -> Z) (k : nat) (arcs : list Arc) : list Arc :=
  match arcs with
  | [] => []
  | a :: rest =>
      if 0 <? flow k then a :: used_arcs flow (S k) rest
      else used_arcs flow (S k) rest
  end.

Definition assignment_of (nGroup : nat) (a : Arc) : Assignment :=
  mkAssignment (arc_tail a) (Z.of_nat (arc_head a) - Z.of_nat nGroup)
    (arc_unit_cost a).

(** Number of assignments of a list made to course [j]. *)
Definition assigned_to_course (j : nat) (asgs : list Assignment) : nat :=
  length (filter (fun x => asg_course x = Z.of_nat j) asgs).

(** Number of assignments of a list made to the tier's TA [i]. *)
Definition assigned_to_ta (i : nat) (asgs : list Assignment) : nat :=
  length (filter (fun x => asg_ta x = i) asgs).

(** Assignments to course [j] over all the tiers of a run. *)
Fixpoint course_total (j : nat) (trs : list TierResult) : nat :=
  match trs with
  | [] => 0
  | tr :: rest => assigned_to_course j (tr_assignments tr) + course_total j rest
  end%nat.

(** Assignments to the TA at position [ta] of the configuration's [avail]
    sequence: it is TA [ta - iStart] of the one tier it belongs to. *)
Fixpoint ta_total (numTAs : list nat) (trs : list TierResult) (ta : nat) : nat :=
  match numTAs, trs with
  | nGroup :: groups, tr :: rest =>
      if (ta <? nGroup)%nat then assigned_to_ta ta (tr_assignments tr)
      else ta_total groups rest (ta - nGroup)
  | _, _ => 0%nat
  end.

(** The arcs the construction loop adds for one student and for a tier,
    as a list comprehension. A pair whose cost the interface refuses has no
    arc: the loop stops there and no network is built. *)
Definition pair_arcs (studentPrefs coursePrefs : list Q)
  (nGroup iStudent iClass : nat) : list Arc :=
  match totalCost studentPrefs coursePrefs nGroup iStudent iClass with
  | Ok tc =>
      if Qltb tc threshold && is_int64 tc
      then [mkArc iStudent (iClass + nGroup) 1 tc]
      else []
  | Raise _ => []
  end.

Definition student_arcs (studentPrefs coursePrefs : list Q)
  (nGroup numClasses iStudent : nat) : list Arc :=
  flat_map (pair_arcs studentPrefs coursePrefs nGroup iStudent) (range numClasses).

Definition tier_arcs (studentPrefs coursePrefs : list Q)
  (nGroup numClasses : nat) : list Arc :=
  flat_map (student_arcs studentPrefs coursePrefs nGroup numClasses) (range nGroup).

(** A configuration as [makeRandData] shapes it. *)
Definition int64_nonneg (z : Z) : Prop := 0 <= z < 2 ^ 63.

Record well_formed (cfg : Config) : Prop := {
  wf_avail_length : length (avail cfg) = totTAs cfg;
  wf_spots_length : length (spots cfg) = numClasses cfg;
  wf_studentPrefs_length :
    length (studentPrefs cfg) = (totTAs cfg * numClasses cfg)%nat;
  wf_coursePrefs_length :
    length (coursePrefs cfg) = (totTAs cfg * numClasses cfg)%nat;
  wf_avail_nonneg : Forall int64_nonneg (avail cfg);
  wf_spots_nonneg : Forall int64_nonneg (spots cfg)
}.

(** A preference sequence whose entries are costs of the table, as the
    generator writes them. *)
Definition table_costs (prefs : list Q) : Prop :=
  Forall (fun c => c ∈ costs) prefs.

(** ** Test doubles for the solver *)

Global Instance Q_eq_dec : EqDecision Q.
Proof. solve_decision. Defined.

Global Instance Arc_eq_dec : EqDecision Arc.
Proof. solve_decision. Defined.

Global Instance SimpleMinCostFlow_eq_dec : EqDecision SimpleMinCostFlow.
Proof. solve_decision. Defined.

(** A solver that answers every network with the same status and no flow. *)
Definition refusing_solver (st : Status) : SimpleMinCostFlow -> Solution :=
  fun _ => mkSolution st (fun _ => 0) 0.

(** A decision procedure for [feasible_flow]: the arcs one by one, and the
    nodes that have a supply or an arc (at the others both the supply and the
    flow are zero). *)
Fixpoint arcs_ok (flow : nat -> Z) (k : nat) (arcs : list Arc) : bool :=
  match arcs with
  | [] => true
  | a :: rest =>
      (0 <=? flow k) && (flow k <=? arc_capacity a) && arcs_ok flow (S k) rest
  end.

Definition node_ok (g : SimpleMinCostFlow) (flow : nat -> Z) (node : nat) : bool :=
  let s := supply g node in
  let n := net_outflow g flow node in
  (if 0 <=? s then (0 <=? n) && (n <=? s) else true)
  && (if s <=? 0 then (s <=? n) && (n <=? 0) else true).

Definition network_nodes (g : SimpleMinCostFlow) : list nat :=
  map fst (map_to_list (smcf_supply g))
  ++ flat_map (fun a => [arc_tail a; arc_head a]) (smcf_arcs g).

Definition feasible_flowb (g : SimpleMinCostFlow) (flow : nat -> Z) : bool :=
  arcs_ok flow 0 (smcf_arcs g) && forallb (node_ok g flow) (network_nodes g).

(** A solver that answers from a table of networks with their flows and
    costs: it returns a listed flow when that flow is feasible, and refuses
    every other network. *)
Fixpoint table_solver (table : list (SimpleMinCostFlow * list Z * Z))
  (g : SimpleMinCostFlow) : Solution :=
  match table with
  | [] => mkSolution BAD_RESULT (fun _ => 0) 0
  | (g0, flows, cost) :: rest =>
      if bool_decide (g = g0) && feasible_flowb g (fun k => nth k flows 0)
      then mkSolution OPTIMAL (fun k => nth k flows 0) cost
      else table_solver rest g
  end.

(** The network [solve] builds for the tier of [nGroup] TAs that starts at
    position [iStart], with the slots array as it is then. *)
Definition tier_network (cfg : Config) (iStart nGroup : nat) (spots : list Z)
  : result SimpleMinCostFlow :=
  build_network
    (slice (studentPrefs cfg) (iStart * numClasses cfg) ((iStart + nGroup) * numClasses cfg))
    (slice (coursePrefs cfg) (iStart * numClasses cfg) ((iStart + nGroup) * numClasses cfg))
    (slice (avail cfg) iStart (iStart + nGroup))
    spots nGroup (numClasses cfg).

(** The assignments a flow makes on a network, in arc order. *)
Definition flow_assignments (g : SimpleMinCostFlow) (flow : nat -> Z)
  (nGroup : nat) : list Assignment :=
  map (assignment_of nGroup) (used_arcs flow 0 (smcf_arcs g)).

(** What a network that [build_network] returned is known to contain. *)
Record built (studentPrefs coursePrefs : list Q) (avail spots : list Z)
  (nGroup numClasses : nat) (g : SimpleMinCostFlow) : Prop := {
  built_arcs : smcf_arcs g = tier_arcs studentPrefs coursePrefs nGroup numClasses;
  built_ta_supply : forall i, (i < nGroup)%nat ->
    exists a, avail !! i = Some a /\ smcf_supply g !! i = Some a;
  built_course_supply : forall j, (j < numClasses)%nat ->
    exists s, spots !! j = Some s /\
              smcf_supply g !! (j + nGroup)%nat = Some (wrap64 (-1 * s));
  built_lookups : forall i j, (i < nGroup)%nat -> (j < numClasses)%nat ->
    exists tc, totalCost studentPrefs coursePrefs nGroup i j = Ok tc
}.

(** ** Example configurations *)

(** Two tiers of one TA each and two courses. *)
Definition cfg_two_tiers : Config :=
  mkConfig 2 1 1 0 [1; 2] [1; 1] [0; 25; 50; 0]%Q [0; 0; 0; 0]%Q.

Definition net_two_tiers_phd : SimpleMinCostFlow :=
  mkSMCF [mkArc 0 1 1 0; mkArc 0 2 1 25]
    (<[2%nat := -2]> (<[1%nat := -1]> (<[0%nat := 1]> ∅))).

Definition net_two_tiers_msc : SimpleMinCostFlow :=
  mkSMCF [mkArc 0 1 1 50; mkArc 0 2 1 0]
    (<[2%nat := -2]> (<[1%nat := 0]> (<[0%nat := 1]> ∅))).

Definition solver_two_tiers : SimpleMinCostFlow -> Solution :=
  table_solver [(net_two_tiers_phd, [1; 0], 0); (net_two_tiers_msc, [0; 1], 0)].

(** One tier of two TAs and three courses: the tier size differs from the
    number of courses. *)
Definition cfg_stride : Config :=
  mkConfig 3 2 0 0 [1; 1; 1] [1; 1] [0; 25; 50; 100; 25; 0]%Q [0; 0; 0; 0; 0; 0]%Q.

(** The same shape; TA 0 is willing to take course 2 only and TA 1 is
    unwilling to take any course. The courses rank every TA most wanted. *)
Definition cfg_unwilling : Config :=
  mkConfig 3 2 0 0 [1; 1; 1] [1; 1]
    (map rankToCost [Unwilling; Unwilling; MostWanted; Unwilling; Unwilling; Unwilling])
    (map rankToCost [MostWanted; MostWanted; MostWanted; MostWanted; MostWanted; MostWanted]).

Definition net_unwilling : SimpleMinCostFlow :=
  mkSMCF [mkArc 0 4 1 0; mkArc 1 2 1 0]
    (<[4%nat := -1]> (<[3%nat := -1]> (<[2%nat := -1]> (<[1%nat := 1]> (<[0%nat := 1]> ∅))))).

Definition solver_unwilling : SimpleMinCostFlow -> Solution :=
  table_solver [(net_unwilling, [1; 1], 0)].

(** Two TAs and two courses, one negative availability, one negative slot
    count, and preference sequences one entry too long. *)
Definition cfg_negative : Config :=
  mkConfig 2 2 0 0 [1; -1] [1; -1] [0; 0; 0; 0; 0]%Q [0; 0; 0; 0; 0]%Q.

Definition net_negative : SimpleMinCostFlow :=
  mkSMCF [mkArc 0 2 1 0; mkArc 0 3 1 0; mkArc 1 2 1 0; mkArc 1 3 1 0]
    (<[3%nat := 1]> (<[2%nat := -1]> (<[1%nat := -1]> (<[0%nat := 1]> ∅)))).

Definition solver_negative : SimpleMinCostFlow -> Solution :=
  table_solver [(net_negative, [1; 0; 0; 0], 0)].

(** Two TAs for one course with two slots, everybody most wanted. *)
Definition cfg_crowded : Config :=
  mkConfig 1 2 0 0 [2] [1; 1] [0; 0]%Q [0; 0]%Q.

(** Two TAs and three courses, one row of three entries for each TA. The
    entries of TA 1 and course 0, at position 3, are 899 and 100: a combined
    cost one below the threshold. Those of TA 0 and course 2, at position 2,
    are 900 and 100: the threshold. *)
Definition cfg_boundary_below : Config :=
  mkConfig 3 2 0 0 [1; 1; 1] [1; 1] [0; 0; 900; 899; 0; 0]%Q [0; 0; 100; 100; 0; 0]%Q.

(** The two student entries exchanged: the combined cost of TA 1 and
    course 0 is [900 + 100], the threshold, and that of TA 0 and course 2 is
    one below it. *)
Definition cfg_boundary_at : Config :=
  mkConfig 3 2 0 0 [1; 1; 1] [1; 1] [0; 0; 899; 900; 0; 0]%Q [0; 0; 100; 100; 0; 0]%Q.

(** One TA who marks the one course as unwilling; the course has a slot. *)
Definition cfg_scenario_b : Config :=
  mkConfig 1 1 0 0 [1] [1] [rankToCost Unwilling] [rankToCost MostWanted].

Definition net_scenario_b : SimpleMinCostFlow :=
  mkSMCF [] (<[1%nat := -1]> (<[0%nat := 1]> ∅)).

(** ** The generator [makeRandData] (lines 19-67)

    The generator draws from [np.random] four times. The values drawn are
    an input of the model, one function per call giving the value at each
    position; the sizes of the arrays are the ones the code asks for. What
    is known of the values ([randint(low=1, high=3)] gives 1 or 2,
    [choice(5)] gives 0 to 4) is a hypothesis where it is needed. *)

Record Draws : Type := mkDraws {
  draw_normal : nat -> Q;
  draw_randint : nat -> Z;
  draw_choice_student : nat -> nat;
  draw_choice_course : nat -> nat
}.

(** [np.rint]: the nearest integer, a half going to the even side. The
    integer-valued float it returns is represented by its integer. *)
Definition rint (q : Q) : Z :=
  let f := Qfloor q in
  match (q - inject_Z f ?= 1 # 2)%Q with
  | Lt => f
  | Gt => f + 1
  | Eq => if Z.even f then f else f + 1
  end.

(** [list(map(f, l))] for an [f] that can raise. *)
Fixpoint map_result {A B : Type} (f : A -> result B) (l : list A)
  : result (list B) :=
  match l with
  | [] => Ok []
  | x :: l' => y <- f x ;; ys <- map_result f l' ;; Ok (y :: ys)
  end.

(** The configuration that is pickled. *)
Definition makeRandData (d : Draws) : result Config :=
  let numClasses := 100%nat in
  let numPhDs := 45%nat in
  let numMSCs := 65%nat in
  let numOther := 30%nat in
  let totTAs := (numPhDs + numMSCs + numOther)%nat in
  let spots := map rint (map (draw_normal d) (range numClasses)) in
  let spots := map (fun s => if 8 <? s then 8 else s) spots in
  let spots := map (fun s => if s <? 2 then 2 else s) spots in
  let avail := map (draw_randint d) (range totTAs) in
  studentPrefs <- map_result (getitem costs)
                    (map (draw_choice_student d) (range (numClasses * totTAs))) ;;
  coursePrefs <- map_result (getitem costs)
                   (map (draw_choice_course d) (range (numClasses * totTAs))) ;;
  Ok (mkConfig numClasses numPhDs numMSCs numOther spots avail
        studentPrefs coursePrefs).

(** [makeRandData(); solve()] *)
Definition main (d : Draws) (solver : SimpleMinCostFlow -> Solution) : result Run :=
  cfg <- makeRandData d ;;
  Ok (solve solver cfg).

(** What the library promises of the draws. *)
Record draws_in_range (d : Draws) : Prop := {
  randint_range : forall k, 1 <= draw_randint d k < 3;
  choice_student_range : forall k, (draw_choice_student d k < 5)%nat;
  choice_course_range : forall k, (draw_choice_course d k < 5)%nat
}.

(** Draws that are the same at every position. *)
Definition constant_draws (q : Q) (a : Z) (i j : nat) : Draws :=
  mkDraws (fun _ => q) (fun _ => a) (fun _ => i) (fun _ => j).

(** ** More vocabulary for the properties *)

(** The TA and the course an arc joins. *)
Definition arc_pair (nGroup : nat) (a : Arc) : nat * nat :=
  (arc_tail a, (arc_head a - nGroup)%nat).

(** The TA and the course of a printed assignment. *)
Definition asg_pair (x : Assignment) : nat * nat :=
  (asg_ta x, Z.to_nat (asg_course x)).

(** All the pairs of a tier, TA by TA and course by course. *)
Definition all_pairs (nGroup numClasses : nat) : list (nat * nat) :=
  flat_map (fun i => map (fun j => (i, j)) (range numClasses)) (range nGroup).

(** The lines [TA %d has %d more capacity] of a tier. *)
Definition unused_report (avail : list Z) (asgs : list Assignment)
  (nGroup : nat) : list (nat * Z) :=
  flat_map (fun i =>
    match avail !! i with
    | Some a => if 0 <? a - Z.of_nat (assigned_to_ta i asgs) then [(i, a)] else []
    | None => []
    end) (range nGroup).

(** One TA who can take two courses, one course with a slot and one
    without. *)
Definition cfg_spare : Config :=
  mkConfig 2 1 0 0 [1; 0] [2] [0; 0]%Q [0; 0]%Q.

Definition net_spare : SimpleMinCostFlow :=
  mkSMCF [mkArc 0 1 1 0; mkArc 0 2 1 0]
    (<[2%nat := 0]> (<[1%nat := -1]> (<[0%nat := 2]> ∅))).

Definition solver_spare : SimpleMinCostFlow -> Solution :=
  table_solver [(net_spare, [1; 0], 0)].

(** A solver that answers [OPTIMAL] with the same flow on every arc,
    feasible or not. *)
Definition flooding_solver (f : Z) : SimpleMinCostFlow -> Solution :=
  fun _ => mkSolution OPTIMAL (fun _ => f) 0.

(** Draws of the generator in which the first TA and the first course rank
    each other most wanted and every other entry of both preference
    sequences is the unwilling rank; the normal values are all 5.5, which
    [np.rint] takes to 6, and every availability is 1. *)
Definition sparse_draws : Draws :=
  mkDraws (fun _ => 11 # 2)%Q (fun _ => 1)
    (fun k => if (k =? 0)%nat then 0%nat else 4%nat)
    (fun k => if (k =? 0)%nat then 0%nat else 4%nat).

(** The PhD tier of the configuration generated from these draws has one
    arc, from TA 0 to course 0. *)
Definition net_generated : SimpleMinCostFlow :=
  match makeRandData sparse_draws with
  | Ok cfg =>
      match tier_network cfg 0 45 (spots cfg) with
      | Ok g => g
      | Raise _ => new_smcf
      end
  | Raise _ => new_smcf
  end.

(** The solver sends one unit along that arc and gives up on the other
    tiers. *)
Definition solver_generated : SimpleMinCostFlow -> Solution :=
  table_solver [(net_generated, [1], 0)].

(** * Proofs *)

(** ** Loops in the [result] monad *)

Lemma bind_ok_inv {A B : Type} (r : result A) (k : A -> result B) (b : B) :
  bind r k = Ok b -> exists a, r = Ok a /\ k a = Ok b.
Proof. destruct r as [a|e]; simpl; [eauto | discriminate]. Qed.

Lemma for_each_app {St X : Type} (xs ys : list X) (body : St -> X -> result St) s :
  for_each (xs ++ ys) body s = (s' <- for_each xs body s ;; for_each ys body s').
Proof.
  revert s. induction xs as [|x xs IH]; intros s; simpl; [done|].
  destruct (body s x) as [s'|e]; simpl; [apply IH | done].
Qed.

Lemma range_succ (n : nat) : range (S n) = range n ++ [n].
Proof. unfold range. by rewrite seq_S. Qed.

Lemma for_range_succ {St : Type} (body : St -> nat -> result St) n s :
  for_each (range (S n)) body s = (s' <- for_each (range n) body s ;; body s' n).
Proof.
  rewrite range_succ, for_each_app.
  destruct (for_each (range n) body s) as [s'|e]; simpl; [|done].
  by destruct (body s' n).
Qed.

(** A loop that ends normally has kept every invariant its body keeps. *)
Lemma for_range_inv {St : Type} (body : St -> nat -> result St)
  (P : nat -> St -> Prop) (n : nat) (s0 s : St) :
  P 0%nat s0 ->
  (forall i t t', (i < n)%nat -> P i t -> body t i = Ok t' -> P (S i) t') ->
  for_each (range n) body s0 = Ok s ->
  P n s.
Proof.
  revert s. induction n as [|n IH]; intros s H0 Hstep Hrun.
  - simpl in Hrun. by injection Hrun as <-.
  - rewrite for_range_succ in Hrun.
    apply bind_ok_inv in Hrun as (t & Hn & Hlast).
    apply (Hstep n t s); [lia| |done].
    apply IH; [done| |done].
    intros i u u' Hi. apply Hstep. lia.
Qed.

(** A loop whose body cannot fail under the invariant ends normally. *)
Lemma for_range_total {St : Type} (body : St -> nat -> result St)
  (P : nat -> St -> Prop) (n : nat) (s0 : St) :
  P 0%nat s0 ->
  (forall i t, (i < n)%nat -> P i t ->
     exists t', body t i = Ok t' /\ P (S i) t') ->
  exists s, for_each (range n) body s0 = Ok s /\ P n s.
Proof.
  induction n as [|n IH]; intros H0 Hstep.
  - exists s0. by split.
  - destruct IH as (t & Hrun & Ht); [done| |].
    { intros i u Hi. apply Hstep. lia. }
    destruct (Hstep n t) as (t' & Hbody & Ht'); [lia|done|].
    exists t'. split; [|done].
    rewrite for_range_succ, Hrun. simpl. done.
Qed.

(** A loop that raises does so in one of its iterations. *)
Lemma for_range_raise_inv {St : Type} (body : St -> nat -> result St)
  (n : nat) (s0 : St) (e : Exception) :
  for_each (range n) body s0 = Raise e ->
  exists k t, (k < n)%nat /\ body t k = Raise e.
Proof.
  induction n as [|n IH]; intros Hrun; [discriminate|].
  rewrite for_range_succ in Hrun.
  destruct (for_each (range n) body s0) as [t|e'] eqn:Hn; simpl in Hrun.
  - exists n, t. split; [lia|done].
  - injection Hrun as ->. destruct IH as (k & t & Hk & Hbody); [done|].
    exists k, t. split; [lia|done].
Qed.

(** A loop with an iteration that raises [e0] in every state, and no
    earlier iteration that can raise anything else, raises [e0]. *)
Lemma for_range_raise {St : Type} (body : St -> nat -> result St) (n i : nat)
  (s0 : St) (e0 : Exception) :
  (i < n)%nat ->
  (forall t, body t i = Raise e0) ->
  (forall k t e, (k < i)%nat -> body t k = Raise e -> e = e0) ->
  for_each (range n) body s0 = Raise e0.
Proof.
  intros Hi Hfail Hearlier. induction n as [|n IH]; [lia|].
  rewrite for_range_succ.
  destruct (for_each (range n) body s0) as [t|e] eqn:Hrun; simpl.
  - destruct (decide (i = n)) as [->|Hne]; [apply Hfail|].
    assert (Ok t = Raise e0) by (apply IH; lia). discriminate.
  - destruct (decide (i = n)) as [->|Hne]; [|apply IH; lia].
    destruct (for_range_raise_inv _ _ _ _ Hrun) as (k & t & Hk & Hbody).
    by rewrite (Hearlier k t e Hk Hbody).
Qed.

(** ** Sequences *)

Lemma getitem_ok {A : Type} (l : list A) (i : nat) (x : A) :
  getitem l i = Ok x <-> l !! i = Some x.
Proof. unfold getitem. destruct (l !! i); split; intros H; by simplify_eq. Qed.

Lemma getitem_raise {A : Type} (l : list A) (i : nat) :
  (length l <= i)%nat -> getitem l i = Raise IndexError.
Proof. intros H. unfold getitem. by rewrite lookup_ge_None_2. Qed.

Lemma getitem_raise_inv {A : Type} (l : list A) (i : nat) (e : Exception) :
  getitem l i = Raise e -> e = IndexError.
Proof. unfold getitem. destruct (l !! i); intros H; by simplify_eq. Qed.

Lemma bind_raise_inv {A B : Type} (r : result A) (k : A -> result B) (e : Exception) :
  bind r k = Raise e -> r = Raise e \/ exists a, r = Ok a /\ k a = Raise e.
Proof.
  destruct r as [a|e']; simpl; intros H; [right; eauto|].
  left. by injection H as ->.
Qed.

Lemma getitem_lt {A : Type} (l : list A) (i : nat) :
  (i < length l)%nat -> exists x, getitem l i = Ok x.
Proof.
  intros H. destruct (lookup_lt_is_Some_2 l i H) as [x Hx].
  exists x. by apply getitem_ok.
Qed.

Lemma slice_length_le {A : Type} (l : list A) (a b : nat) :
  (length (slice l a b) <= b - a)%nat.
Proof. unfold slice. rewrite length_take. lia. Qed.

Lemma slice_length {A : Type} (l : list A) (a b : nat) :
  (b <= length l)%nat -> length (slice l a b) = (b - a)%nat.
Proof. intros H. unfold slice. rewrite length_take, length_drop. lia. Qed.

Lemma slice_lookup {A : Type} (l : list A) (a b i : nat) :
  (i < b - a)%nat -> slice l a b !! i = l !! (a + i)%nat.
Proof. intros H. unfold slice. by rewrite lookup_take_lt, lookup_drop. Qed.

Lemma py_index_nat (len i : nat) :
  (i < len)%nat -> py_index len (Z.of_nat i) = Ok i.
Proof.
  intros H. unfold py_index.
  replace (0 <=? Z.of_nat i) with true by (symmetry; apply Z.leb_le; lia).
  replace (Z.of_nat i <? Z.of_nat len) with true by (symmetry; apply Z.ltb_lt; lia).
  simpl. by rewrite Nat2Z.id.
Qed.

Lemma wrap64_id (z : Z) : - 2 ^ 63 <= z < 2 ^ 63 -> wrap64 z = z.
Proof. intros H. unfold wrap64. rewrite Z.mod_small; lia. Qed.

Lemma decrement_nat (a : list Z) (i : nat) (x : Z) :
  a !! i = Some x ->
  decrement a (Z.of_nat i) = Ok (<[i := wrap64 (x - 1)]> a).
Proof.
  intros H. unfold decrement.
  rewrite py_index_nat by (by eapply lookup_lt_Some). simpl.
  apply getitem_ok in H. by rewrite H.
Qed.

Lemma Qltb_lt (x y : Q) : Qltb x y = true <-> (x < y)%Q.
Proof.
  unfold Qltb. rewrite negb_true_iff, <- not_true_iff_false, Qle_bool_iff.
  split; [apply Qnot_le_lt | apply Qlt_not_le].
Qed.

(** ** Network construction *)

Lemma flat_map_range_succ {A : Type} (f : nat -> list A) (n : nat) :
  flat_map f (range (S n)) = flat_map f (range n) ++ f n.
Proof. rewrite range_succ, flat_map_app. simpl. by rewrite app_nil_r. Qed.

Lemma class_loop_ok sp cp nGroup numClasses i g g' :
  for_each (range numClasses) (class_body sp cp nGroup i) g = Ok g' ->
  smcf_arcs g' = smcf_arcs g ++ student_arcs sp cp nGroup numClasses i /\
  smcf_supply g' = smcf_supply g /\
  (forall j, (j < numClasses)%nat -> exists tc, totalCost sp cp nGroup i j = Ok tc).
Proof.
  apply (for_range_inv _ (fun k h =>
    smcf_arcs h = smcf_arcs g ++ flat_map (pair_arcs sp cp nGroup i) (range k) /\
    smcf_supply h = smcf_supply g /\
    (forall j, (j < k)%nat -> exists tc, totalCost sp cp nGroup i j = Ok tc))).
  - simpl. rewrite app_nil_r. split_and!; [done|done|]. intros j Hj. lia.
  - intros k t t' Hk (Harcs & Hsup & Hlook) Hbody.
    unfold class_body in Hbody.
    apply bind_ok_inv in Hbody as (tc & Htc & Hbody).
    rewrite flat_map_range_succ. unfold pair_arcs at 2. rewrite Htc.
    assert (Hlook' : forall j, (j < S k)%nat ->
              exists tc, totalCost sp cp nGroup i j = Ok tc).
    { intros j Hj. destruct (decide (j = k)) as [->|]; [eauto|]. apply Hlook. lia. }
    unfold add_arc_with_capacity_and_unit_cost in Hbody.
    destruct (Qltb tc threshold); simpl.
    + destruct (is_int64 tc); [|discriminate]. injection Hbody as <-. simpl.
      rewrite Harcs, <- app_assoc. done.
    + injection Hbody as <-. rewrite app_nil_r. done.
Qed.

Lemma class_loop_total sp cp nGroup numClasses i g :
  (forall j, (j < numClasses)%nat ->
     exists tc, totalCost sp cp nGroup i j = Ok tc /\
                (Qltb tc threshold = true -> is_int64 tc = true)) ->
  exists g', for_each (range numClasses) (class_body sp cp nGroup i) g = Ok g'.
Proof.
  intros Hlook.
  destruct (for_range_total (class_body sp cp nGroup i) (fun _ _ => True)
              numClasses g) as (g' & Hrun & _); [done| |eauto].
  intros j t Hj _. destruct (Hlook j Hj) as (tc & Htc & Hint).
  unfold class_body, add_arc_with_capacity_and_unit_cost. rewrite Htc. simpl.
  destruct (Qltb tc threshold); [|eauto]. rewrite Hint by done. eauto.
Qed.

Lemma student_loop_ok sp cp av nGroup numClasses g :
  for_each (range nGroup) (student_body sp cp av nGroup numClasses) new_smcf = Ok g ->
  smcf_arcs g = tier_arcs sp cp nGroup numClasses /\
  (forall i, (i < nGroup)%nat -> exists a, av !! i = Some a /\ smcf_supply g !! i = Some a) /\
  (forall n, (nGroup <= n)%nat -> smcf_supply g !! n = None) /\
  (forall i j, (i < nGroup)%nat -> (j < numClasses)%nat ->
     exists tc, totalCost sp cp nGroup i j = Ok tc).
Proof.
  apply (for_range_inv _ (fun k h =>
    smcf_arcs h = flat_map (student_arcs sp cp nGroup numClasses) (range k) /\
    (forall i, (i < k)%nat -> exists a, av !! i = Some a /\ smcf_supply h !! i = Some a) /\
    (forall n, (k <= n)%nat -> smcf_supply h !! n = None) /\
    (forall i j, (i < k)%nat -> (j < numClasses)%nat ->
       exists tc, totalCost sp cp nGroup i j = Ok tc))).
  - simpl. split_and!; [done| | |]; intros; first [lia | apply lookup_empty].
  - intros k t t' Hk (Harcs & Hta & Hnone & Hlook) Hbody.
    unfold student_body in Hbody.
    apply bind_ok_inv in Hbody as (h & Hclasses & Hbody).
    apply bind_ok_inv in Hbody as (a & Ha & Hbody).
    injection Hbody as <-. apply getitem_ok in Ha.
    apply class_loop_ok in Hclasses as (Harcs' & Hsup' & Hlook').
    rewrite flat_map_range_succ. simpl. rewrite Hsup'. split_and!.
    + by rewrite Harcs', Harcs.
    + intros i Hi. destruct (decide (i = k)) as [->|Hne].
      * exists a. by rewrite lookup_insert_eq.
      * rewrite lookup_insert_ne by done. apply Hta. lia.
    + intros n Hn. rewrite lookup_insert_ne by lia. apply Hnone. lia.
    + intros i j Hi Hj. destruct (decide (i = k)) as [->|Hne]; [by apply Hlook'|].
      apply Hlook; [lia|done].
Qed.

Lemma course_loop_ok sl nGroup numClasses g g' :
  for_each (range numClasses) (course_body sl nGroup) g = Ok g' ->
  smcf_arcs g' = smcf_arcs g /\
  (forall i, (i < nGroup)%nat -> smcf_supply g' !! i = smcf_supply g !! i) /\
  (forall j, (j < numClasses)%nat ->
     exists s, sl !! j = Some s /\
               smcf_supply g' !! (j + nGroup)%nat = Some (wrap64 (-1 * s))).
Proof.
  apply (for_range_inv _ (fun k h =>
    smcf_arcs h = smcf_arcs g /\
    (forall i, (i < nGroup)%nat -> smcf_supply h !! i = smcf_supply g !! i) /\
    (forall j, (j < k)%nat ->
       exists s, sl !! j = Some s /\
                 smcf_supply h !! (j + nGroup)%nat = Some (wrap64 (-1 * s))))).
  - split_and!; [done|done|]. intros j Hj. lia.
  - intros k t t' Hk (Harcs & Hta & Hco) Hbody.
    unfold course_body in Hbody.
    apply bind_ok_inv in Hbody as (s & Hs & Hbody).
    injection Hbody as <-. apply getitem_ok in Hs. simpl. split_and!; [done| |].
    + intros i Hi. rewrite lookup_insert_ne by lia. by apply Hta.
    + intros j Hj. destruct (decide (j = k)) as [->|Hne].
      * exists s. by rewrite lookup_insert_eq.
      * rewrite lookup_insert_ne by lia. apply Hco. lia.
Qed.

Lemma build_network_ok sp cp av sl nGroup numClasses g :
  build_network sp cp av sl nGroup numClasses = Ok g ->
  built sp cp av sl nGroup numClasses g.
Proof.
  unfold build_network. intros Hrun.
  apply bind_ok_inv in Hrun as (h & Hstudents & Hcourses).
  apply student_loop_ok in Hstudents as (Harcs & Hta & _ & Hlook).
  apply course_loop_ok in Hcourses as (Harcs' & Hta' & Hco).
  split; [congruence| |done|done].
  intros i Hi. destruct (Hta i Hi) as (a & Ha & Hs). exists a.
  split; [done|]. by rewrite Hta'.
Qed.

(** In a network that was built every cost below the threshold was accepted
    by the solver's interface. *)
Lemma class_loop_ints sp cp nGroup numClasses i g g' j tc :
  for_each (range numClasses) (class_body sp cp nGroup i) g = Ok g' ->
  (j < numClasses)%nat ->
  totalCost sp cp nGroup i j = Ok tc ->
  Qltb tc threshold = true -> is_int64 tc = true.
Proof.
  intros Hrun Hj Htc Hlt.
  enough (H : (j < numClasses)%nat -> is_int64 tc = true) by auto.
  refine (for_range_inv (class_body sp cp nGroup i)
            (fun k _ => (j < k)%nat -> is_int64 tc = true) numClasses g g' _ _ Hrun);
    [lia|].
  intros k t t' Hk IH Hbody Hjk.
  destruct (decide (j = k)) as [->|Hne]; [|apply IH; lia].
  unfold class_body, add_arc_with_capacity_and_unit_cost in Hbody.
  rewrite Htc in Hbody. simpl in Hbody. rewrite Hlt in Hbody.
  by destruct (is_int64 tc).
Qed.

Lemma build_network_ints sp cp av sl nGroup numClasses g i j tc :
  build_network sp cp av sl nGroup numClasses = Ok g ->
  (i < nGroup)%nat -> (j < numClasses)%nat ->
  totalCost sp cp nGroup i j = Ok tc ->
  Qltb tc threshold = true -> is_int64 tc = true.
Proof.
  unfold build_network. intros Hrun Hi Hj Htc Hlt.
  apply bind_ok_inv in Hrun as (h & Hstudents & _).
  enough (H : (i < nGroup)%nat -> is_int64 tc = true) by auto.
  refine (for_range_inv (student_body sp cp av nGroup numClasses)
            (fun k _ => (i < k)%nat -> is_int64 tc = true) nGroup new_smcf h _ _
            Hstudents); [lia|].
  intros k t t' Hk IH Hbody Hik.
  destruct (decide (i = k)) as [->|Hne]; [|apply IH; lia].
  unfold student_body in Hbody.
  apply bind_ok_inv in Hbody as (h' & Hclasses & _).
  by eapply class_loop_ints.
Qed.

(** The construction fails only on a lookup out of range or on a cost the
    solver's interface refuses. *)
Lemma build_network_total sp cp av sl nGroup numClasses :
  (forall i j, (i < nGroup)%nat -> (j < numClasses)%nat ->
     exists tc, totalCost sp cp nGroup i j = Ok tc /\
                (Qltb tc threshold = true -> is_int64 tc = true)) ->
  (nGroup <= length av)%nat ->
  (numClasses <= length sl)%nat ->
  exists g, build_network sp cp av sl nGroup numClasses = Ok g.
Proof.
  intros Hlook Hav Hsl. unfold build_network.
  destruct (for_range_total (student_body sp cp av nGroup numClasses)
              (fun _ _ => True) nGroup new_smcf) as (h & Hh & _); [done| |].
  { intros i t Hi _. unfold student_body.
    destruct (class_loop_total sp cp nGroup numClasses i t) as [t' Ht'].
    { intros j Hj. by apply Hlook. }
    rewrite Ht'. simpl.
    destruct (getitem_lt av i) as [a Ha]; [lia|]. rewrite Ha. simpl. eauto. }
  rewrite Hh. simpl.
  destruct (for_range_total (course_body sl nGroup) (fun _ _ => True)
              numClasses h) as (g & Hg & _); [done| |eauto].
  intros j t Hj _. unfold course_body.
  destruct (getitem_lt sl j) as [s Hs]; [lia|]. rewrite Hs. simpl. eauto.
Qed.

(** The arcs of a tier, one by one. *)
Lemma elem_of_tier_arcs sp cp nGroup numClasses (a : Arc) :
  a ∈ tier_arcs sp cp nGroup numClasses <->
  exists i j tc, (i < nGroup)%nat /\ (j < numClasses)%nat /\
    totalCost sp cp nGroup i j = Ok tc /\ Qltb tc threshold = true /\
    a = mkArc i (j + nGroup) 1 tc /\ is_int64 tc = true.
Proof.
  unfold tier_arcs, student_arcs, range.
  rewrite list_elem_of_In, in_flat_map. split.
  - intros (i & Hi & Ha). apply in_flat_map in Ha as (j & Hj & Ha).
    apply in_seq in Hi, Hj. unfold pair_arcs in Ha.
    destruct (totalCost sp cp nGroup i j) as [tc|] eqn:Htc; [|done].
    destruct (Qltb tc threshold) eqn:Hlt; [|done].
    destruct (is_int64 tc) eqn:Hint; [|done].
    destruct Ha as [<-|[]]. exists i, j, tc.
    split_and!; [lia|lia|done|done|done|done].
  - intros (i & j & tc & Hi & Hj & Htc & Hlt & -> & Hint).
    exists i. split; [apply in_seq; lia|].
    apply in_flat_map. exists j. split; [apply in_seq; lia|].
    unfold pair_arcs. rewrite Htc, Hlt, Hint. by left.
Qed.

(** ** Counting assignments *)

Lemma used_arcs_app flow k (xs ys : list Arc) :
  used_arcs flow k (xs ++ ys)
  = used_arcs flow k xs ++ used_arcs flow (k + length xs) ys.
Proof.
  revert k. induction xs as [|x xs IH]; intros k; simpl.
  - by rewrite Nat.add_0_r.
  - rewrite IH. replace (S k + length xs)%nat with (k + S (length xs))%nat by lia.
    by destruct (0 <? flow k).
Qed.

Lemma used_arcs_take_succ flow (arcs : list Arc) k a :
  arcs !! k = Some a ->
  used_arcs flow 0 (take (S k) arcs)
  = used_arcs flow 0 (take k arcs) ++ (if 0 <? flow k then [a] else []).
Proof.
  intros Ha. rewrite (take_S_r _ _ _ Ha), used_arcs_app. simpl.
  rewrite length_take_le; [done|]. apply lookup_lt_Some in Ha. lia.
Qed.

Lemma assigned_to_course_snoc j asgs x :
  assigned_to_course j (asgs ++ [x])
  = (assigned_to_course j asgs
     + (if decide (asg_course x = Z.of_nat j) then 1 else 0))%nat.
Proof.
  unfold assigned_to_course. rewrite filter_app, length_app.
  rewrite filter_cons, filter_nil. by case_decide.
Qed.

Lemma assigned_to_course_app j xs ys :
  assigned_to_course j (xs ++ ys)
  = (assigned_to_course j xs + assigned_to_course j ys)%nat.
Proof. unfold assigned_to_course. by rewrite filter_app, length_app. Qed.

(** The assignments counted after a prefix of the arcs are among those
    counted at the end. *)
Lemma assigned_to_course_prefix j nGroup flow (arcs : list Arc) k :
  (assigned_to_course j (map (assignment_of nGroup) (used_arcs flow 0 (take k arcs)))
   <= assigned_to_course j (map (assignment_of nGroup) (used_arcs flow 0 arcs)))%nat.
Proof.
  rewrite <- (take_drop k arcs) at 2.
  rewrite used_arcs_app, map_app, assigned_to_course_app. lia.
Qed.

Lemma flow_sum_none sel flow k (arcs : list Arc) :
  (forall a, a ∈ arcs -> sel a = false) ->
  flow_sum sel flow k arcs = 0.
Proof.
  revert k. induction arcs as [|a arcs IH]; intros k Hsel; simpl; [done|].
  rewrite (Hsel a) by apply list_elem_of_here.
  rewrite IH; [done|]. intros b Hb. apply Hsel. by apply list_elem_of_further.
Qed.

(** With a flow that is nowhere negative, the arcs that carry flow and are
    selected by [sel] are at most as many as the flow [sel] selects. *)
Lemma used_arcs_le_flow_sum (P : Arc -> Prop) `{!forall a, Decision (P a)}
  (sel : Arc -> bool) flow k (arcs : list Arc) :
  (forall i a, arcs !! i = Some a -> 0 <= flow (k + i)%nat) ->
  (forall a, a ∈ arcs -> P a -> sel a = true) ->
  Z.of_nat (length (filter P (used_arcs flow k arcs))) <= flow_sum sel flow k arcs.
Proof.
  revert k. induction arcs as [|a arcs IH]; intros k Hflow Hsel; simpl; [done|].
  assert (Hk : 0 <= flow k).
  { specialize (Hflow 0%nat a eq_refl). by rewrite Nat.add_0_r in Hflow. }
  assert (IH' : Z.of_nat (length (filter P (used_arcs flow (S k) arcs)))
                <= flow_sum sel flow (S k) arcs).
  { apply IH.
    - intros i b Hb. replace (S k + i)%nat with (k + S i)%nat by lia.
      by apply (Hflow (S i) b).
    - intros b Hb. apply Hsel. by apply list_elem_of_further. }
  destruct (0 <? flow k) eqn:Hpos.
  - apply Z.ltb_lt in Hpos. rewrite filter_cons.
    destruct (decide (P a)) as [HP|HP].
    + rewrite (Hsel a (list_elem_of_here _ _) HP). simpl length. lia.
    + destruct (sel a); lia.
  - destruct (sel a); lia.
Qed.

(** ** Extraction *)

(** On a network whose arcs point from a TA of the tier to a course, the
    extraction loop never raises; it records one assignment per arc that
    carries flow, and, as long as no course is given more assignments than it
    has slots, it subtracts from each course the assignments made to it. *)
Lemma extraction_ok g flow nGroup (sl av : list Z) :
  (forall a, a ∈ smcf_arcs g ->
     (arc_tail a < length av)%nat /\ (nGroup <= arc_head a)%nat /\
     (arc_head a - nGroup < length sl)%nat) ->
  exists st,
    for_each (range (num_arcs g)) (extract_body g flow nGroup)
      (mkExtraction sl av []) = Ok st /\
    ex_assignments st = map (assignment_of nGroup) (used_arcs flow 0 (smcf_arcs g)) /\
    length (ex_spots st) = length sl /\
    length (ex_avail st) = length av /\
    ((forall j x, sl !! j = Some x ->
        0 <= x < 2 ^ 63 /\
        Z.of_nat (assigned_to_course j
          (map (assignment_of nGroup) (used_arcs flow 0 (smcf_arcs g)))) <= x) ->
     forall j x, sl !! j = Some x ->
       ex_spots st !! j = Some (x - Z.of_nat (assigned_to_course j (ex_assignments st)))).
Proof.
  intros Hshape.
  set (A k := map (assignment_of nGroup) (used_arcs flow 0 (take k (smcf_arcs g)))).
  destruct (for_range_total (extract_body g flow nGroup) (fun k st =>
    ex_assignments st = A k /\
    length (ex_spots st) = length sl /\
    length (ex_avail st) = length av /\
    ((forall j x, sl !! j = Some x ->
        0 <= x < 2 ^ 63 /\
        Z.of_nat (assigned_to_course j
          (map (assignment_of nGroup) (used_arcs flow 0 (smcf_arcs g)))) <= x) ->
     forall j x, sl !! j = Some x ->
       ex_spots st !! j = Some (x - Z.of_nat (assigned_to_course j (A k)))))
    (num_arcs g) (mkExtraction sl av [])) as (st & Hrun & Hasg & Hls & Hla & Hacc).
  - split_and!; [done|done|done|]. intros _ j x Hx. simpl.
    unfold A, assigned_to_course. simpl. rewrite Hx. f_equal. lia.
  - intros k t Hk (Hasg & Hls & Hla & Hacc).
    destruct (lookup_lt_is_Some_2 (smcf_arcs g) k Hk) as [a Ha].
    assert (HA : A (S k) = A k ++ (if 0 <? flow k then [assignment_of nGroup a] else [])).
    { unfold A. rewrite (used_arcs_take_succ _ _ _ _ Ha), map_app.
      by destruct (0 <? flow k). }
    unfold extract_body. destruct (0 <? flow k) eqn:Hpos.
    + destruct (Hshape a) as (Htail & Hhead & Hcourse).
      { apply list_elem_of_lookup. eauto. }
      apply getitem_ok in Ha as Hget. rewrite Hget. simpl.
      replace (Z.of_nat (arc_head a) - Z.of_nat nGroup)
        with (Z.of_nat (arc_head a - nGroup)) by lia.
      destruct (lookup_lt_is_Some_2 (ex_spots t) (arc_head a - nGroup)) as [v Hv];
        [lia|].
      destruct (lookup_lt_is_Some_2 (ex_avail t) (arc_tail a)) as [w Hw]; [lia|].
      rewrite (decrement_nat _ _ _ Hv). simpl.
      rewrite (decrement_nat _ _ _ Hw). simpl.
      eexists. split; [done|]. simpl.
      assert (Hthis : assignment_of nGroup a
                = mkAssignment (arc_tail a) (Z.of_nat (arc_head a - nGroup))
                    (arc_unit_cost a)).
      { unfold assignment_of. f_equal. lia. }
      split_and!.
      * by rewrite HA, Hasg, Hthis.
      * by rewrite length_insert.
      * by rewrite length_insert.
      * intros Hfit j x Hx. rewrite HA, assigned_to_course_snoc, Hthis. simpl.
        specialize (Hacc Hfit).
        destruct (decide (j = (arc_head a - nGroup)%nat)) as [->|Hne].
        -- rewrite decide_True by done.
           rewrite list_lookup_insert_eq by (by eapply lookup_lt_Some).
           rewrite (Hacc _ _ Hx) in Hv. injection Hv as <-.
           destruct (Hfit _ _ Hx) as [Hx63 Htot].
           pose proof (assigned_to_course_prefix (arc_head a - nGroup) nGroup flow
                         (smcf_arcs g) (S k)) as Hpre.
           fold (A (S k)) in Hpre.
           rewrite HA, assigned_to_course_snoc, Hthis in Hpre. simpl in Hpre.
           rewrite decide_True in Hpre by done.
           rewrite wrap64_id by lia. f_equal. lia.
        -- rewrite decide_False by lia.
           rewrite list_lookup_insert_ne by done.
           rewrite (Hacc _ _ Hx). f_equal. lia.
    + exists t. split; [done|]. rewrite HA, app_nil_r. done.
  - exists st. unfold A in Hasg, Hacc. unfold num_arcs in Hasg, Hacc.
    rewrite firstn_all in Hasg, Hacc.
    split_and!; [done|done|done|done|].
    intros Hfit j x Hx. rewrite Hasg. by apply Hacc.
Qed.

Lemma built_shape sp cp av sl nGroup numClasses g a :
  built sp cp av sl nGroup numClasses g ->
  a ∈ smcf_arcs g ->
  (arc_tail a < nGroup)%nat /\ (nGroup <= arc_head a)%nat /\
  (arc_head a - nGroup < numClasses)%nat /\ arc_capacity a = 1.
Proof.
  intros Hb Ha. rewrite (built_arcs _ _ _ _ _ _ _ Hb) in Ha.
  apply elem_of_tier_arcs in Ha as (i & j & tc & Hi & Hj & _ & _ & -> & _).
  simpl. lia.
Qed.

Lemma built_lengths sp cp av sl nGroup numClasses g :
  built sp cp av sl nGroup numClasses g ->
  (nGroup <= length av)%nat /\ (numClasses <= length sl)%nat.
Proof.
  intros Hb. split.
  - destruct nGroup as [|n]; [lia|].
    destruct (built_ta_supply _ _ _ _ _ _ _ Hb n) as (a & Ha & _); [lia|].
    apply lookup_lt_Some in Ha. lia.
  - destruct numClasses as [|n]; [lia|].
    destruct (built_course_supply _ _ _ _ _ _ _ Hb n) as (s & Hs & _); [lia|].
    apply lookup_lt_Some in Hs. lia.
Qed.

Lemma filter_map_length {A B : Type} (P : B -> Prop) `{!forall b, Decision (P b)}
  (f : A -> B) (l : list A) :
  length (filter P (map f l)) = length (filter (fun a => P (f a)) l).
Proof.
  induction l as [|a l IH]; simpl; [done|].
  rewrite !filter_cons. destruct (decide (P (f a))); simpl; by rewrite IH.
Qed.

(** ** One tier *)

(** Once its network is built, a tier cannot raise. *)
Lemma solve_tier_ok solver cfg iStart nGroup sl g :
  tier_network cfg iStart nGroup sl = Ok g ->
  exists tr,
    solve_tier solver cfg iStart nGroup sl = Ok tr /\
    tr_status tr = sol_status (solver g) /\
    (sol_status (solver g) <> OPTIMAL ->
       tr = mkTierResult (sol_status (solver g)) None [] [] sl) /\
    (sol_status (solver g) = OPTIMAL ->
       tr_assignments tr = flow_assignments g (sol_flow (solver g)) nGroup /\
       length (tr_spots tr) = length sl /\
       ((forall j x, sl !! j = Some x ->
           0 <= x < 2 ^ 63 /\
           Z.of_nat (assigned_to_course j
             (flow_assignments g (sol_flow (solver g)) nGroup)) <= x) ->
        forall j x, sl !! j = Some x ->
          tr_spots tr !! j
          = Some (x - Z.of_nat (assigned_to_course j (tr_assignments tr))))).
Proof.
  intros Hnet. pose proof (build_network_ok _ _ _ _ _ _ _ Hnet) as Hb.
  unfold tier_network in Hnet. unfold solve_tier. rewrite Hnet. simpl.
  destruct (decide (sol_status (solver g) = OPTIMAL)) as [Hopt|Hopt].
  - destruct (built_lengths _ _ _ _ _ _ _ Hb) as [Hav Hsl].
    destruct (extraction_ok g (sol_flow (solver g)) nGroup sl
                (slice (avail cfg) iStart (iStart + nGroup)))
      as (st & Hrun & Hasg & Hls & Hla & Hacc).
    { intros a Ha. destruct (built_shape _ _ _ _ _ _ _ _ Hb Ha) as (? & ? & ? & _).
      lia. }
    rewrite Hrun. simpl.
    destruct (for_range_total (report_body g (ex_avail st)) (fun _ _ => True)
                nGroup []) as (unused & Hrep & _); [done| |].
    { intros i t Hi _. unfold report_body.
      destruct (getitem_lt (ex_avail st) i) as [a Ha]; [lia|].
      rewrite Ha. simpl. destruct (0 <? a); eauto. }
    rewrite Hrep. simpl. eexists. split; [done|]. simpl.
    split_and!; [done|done|]. intros _. split_and!; [done|done|].
    intros Hfit j x Hx. by apply Hacc.
  - eexists. split; [done|]. simpl. split_and!; [done|done|done].
Qed.

Lemma solve_tier_raise solver cfg iStart nGroup sl e :
  tier_network cfg iStart nGroup sl = Raise e ->
  solve_tier solver cfg iStart nGroup sl = Raise e.
Proof. unfold tier_network, solve_tier. by intros ->. Qed.

(** ** What a feasible flow allows *)

Lemma feasible_course_bound sp cp av sl nGroup numClasses g flow j x :
  built sp cp av sl nGroup numClasses g ->
  feasible_flow g flow ->
  sl !! j = Some x -> 0 <= x < 2 ^ 63 ->
  Z.of_nat (assigned_to_course j (flow_assignments g flow nGroup)) <= x.
Proof.
  intros Hb [Hcap Hnode] Hx Hrange.
  unfold assigned_to_course, flow_assignments. rewrite filter_map_length.
  etrans.
  { apply (used_arcs_le_flow_sum _ (enters (j + nGroup))).
    - intros i a Ha. by apply (Hcap i a).
    - intros a _ Ha. unfold assignment_of in Ha. simpl in Ha.
      unfold enters. apply Nat.eqb_eq. lia. }
  destruct (decide (j < numClasses)%nat) as [Hj|Hj].
  - destruct (built_course_supply _ _ _ _ _ _ _ Hb j Hj) as (s & Hs & Hsup).
    assert (s = x) as -> by congruence.
    destruct (Hnode (j + nGroup)%nat) as [_ Hdemand].
    unfold supply, net_outflow in Hdemand. rewrite Hsup in Hdemand. simpl in Hdemand.
    rewrite wrap64_id in Hdemand by lia.
    rewrite (flow_sum_none (leaves (j + nGroup))) in Hdemand; [lia|].
    intros a Ha. destruct (built_shape _ _ _ _ _ _ _ _ Hb Ha) as (Ht & _).
    unfold leaves. apply Nat.eqb_neq. lia.
  - rewrite flow_sum_none; [lia|].
    intros a Ha. destruct (built_shape _ _ _ _ _ _ _ _ Hb Ha) as (_ & ? & ? & _).
    unfold enters. apply Nat.eqb_neq. lia.
Qed.

Lemma feasible_ta_bound sp cp av sl nGroup numClasses g flow i a :
  built sp cp av sl nGroup numClasses g ->
  feasible_flow g flow ->
  av !! i = Some a -> 0 <= a ->
  Z.of_nat (assigned_to_ta i (flow_assignments g flow nGroup)) <= a.
Proof.
  intros Hb [Hcap Hnode] Ha Hnonneg.
  unfold assigned_to_ta, flow_assignments. rewrite filter_map_length.
  etrans.
  { apply (used_arcs_le_flow_sum _ (leaves i)).
    - intros k b Hk. by apply (Hcap k b).
    - intros b _ Hta. unfold assignment_of in Hta. simpl in Hta.
      unfold leaves. by apply Nat.eqb_eq. }
  destruct (decide (i < nGroup)%nat) as [Hi|Hi].
  - destruct (built_ta_supply _ _ _ _ _ _ _ Hb i Hi) as (s & Hs & Hsup).
    assert (s = a) as -> by congruence.
    destruct (Hnode i) as [Hsupply _].
    unfold supply, net_outflow in Hsupply. rewrite Hsup in Hsupply. simpl in Hsupply.
    rewrite (flow_sum_none (enters i)) in Hsupply; [lia|].
    intros b Hb'. destruct (built_shape _ _ _ _ _ _ _ _ Hb Hb') as (_ & ? & _).
    unfold enters. apply Nat.eqb_neq. lia.
  - rewrite flow_sum_none; [lia|].
    intros b Hb'. destruct (built_shape _ _ _ _ _ _ _ _ Hb Hb') as (? & _).
    unfold leaves. apply Nat.eqb_neq. lia.
Qed.

(** ** The test solvers keep the contract *)

Lemma arcs_ok_sound flow k (arcs : list Arc) :
  arcs_ok flow k arcs = true ->
  forall i a, arcs !! i = Some a -> 0 <= flow (k + i)%nat <= arc_capacity a.
Proof.
  revert k. induction arcs as [|b arcs IH]; intros k Hok i a Ha; [done|].
  simpl in Hok. apply andb_prop in Hok as [Hb Hrest].
  apply andb_prop in Hb as [Hlo Hhi].
  destruct i as [|i]; simpl in Ha.
  - injection Ha as <-. rewrite Nat.add_0_r. lia.
  - replace (k + S i)%nat with (S k + i)%nat by lia. by apply IH.
Qed.

Lemma node_ok_sound g flow node :
  node_ok g flow node = true ->
  (0 <= supply g node -> 0 <= net_outflow g flow node <= supply g node) /\
  (supply g node <= 0 -> supply g node <= net_outflow g flow node <= 0).
Proof.
  unfold node_ok. intros Hok. apply andb_prop in Hok as [Hs Hd]. split; intros H.
  - replace (0 <=? supply g node) with true in Hs by (symmetry; apply Z.leb_le; lia).
    apply andb_prop in Hs as [? ?]. lia.
  - replace (supply g node <=? 0) with true in Hd by (symmetry; apply Z.leb_le; lia).
    apply andb_prop in Hd as [? ?]. lia.
Qed.

Lemma outside_network_nodes g node :
  node ∉ network_nodes g ->
  smcf_supply g !! node = None /\
  (forall a, a ∈ smcf_arcs g -> leaves node a = false /\ enters node a = false).
Proof.
  unfold network_nodes. intros Hnot. split.
  - destruct (smcf_supply g !! node) as [s|] eqn:Hs; [|done].
    exfalso. apply Hnot. apply elem_of_app. left.
    apply list_elem_of_In, in_map_iff. exists (node, s). split; [done|].
    apply list_elem_of_In. by apply elem_of_map_to_list.
  - intros a Ha. unfold leaves, enters.
    split; apply Nat.eqb_neq; intros Heq; apply Hnot; apply elem_of_app; right;
      apply list_elem_of_In, in_flat_map; exists a;
      (split; [by apply list_elem_of_In|]); simpl; rewrite Heq; auto.
Qed.

Lemma feasible_flowb_sound g flow :
  feasible_flowb g flow = true -> feasible_flow g flow.
Proof.
  unfold feasible_flowb. intros Hok. apply andb_prop in Hok as [Harcs Hnodes].
  split.
  - intros k a Ha. apply (arcs_ok_sound _ _ _ Harcs k a Ha).
  - intros node. destruct (decide (node ∈ network_nodes g)) as [Hin|Hout].
    + apply node_ok_sound. rewrite forallb_forall in Hnodes.
      apply Hnodes. by apply list_elem_of_In.
    + destruct (outside_network_nodes g node Hout) as [Hsup Harc].
      unfold supply, net_outflow. rewrite Hsup. simpl.
      rewrite !flow_sum_none; [lia| |]; intros a Ha; by apply Harc.
Qed.

Lemma table_solver_contract table : solver_contract (table_solver table).
Proof.
  intros g. induction table as [|[[g0 flows] cost] table IH]; simpl; [done|].
  destruct (bool_decide (g = g0) && feasible_flowb g (fun k => nth k flows 0))
    eqn:Hhit; simpl; [|done].
  intros _. apply andb_prop in Hhit as [_ Hfeas]. by apply feasible_flowb_sound.
Qed.

Lemma refusing_solver_contract st : st <> OPTIMAL -> solver_contract (refusing_solver st).
Proof. intros Hst g Hopt. simpl in Hopt. congruence. Qed.

(** ** The run, tier after tier *)

Lemma solve_tier_inv solver cfg iStart nGroup sl tr :
  solve_tier solver cfg iStart nGroup sl = Ok tr ->
  exists g, tier_network cfg iStart nGroup sl = Ok g.
Proof.
  intros Htr. destruct (tier_network cfg iStart nGroup sl) as [g|e] eqn:Hnet; [eauto|].
  rewrite (solve_tier_raise solver _ _ _ _ _ Hnet) in Htr. discriminate.
Qed.

(** A tier that printed its result was built, and then either the solver
    did not answer [OPTIMAL] and nothing changed, or the flow was extracted. *)
Lemma solve_tier_cases solver cfg iStart nGroup sl tr :
  solve_tier solver cfg iStart nGroup sl = Ok tr ->
  exists g,
    tier_network cfg iStart nGroup sl = Ok g /\
    ((sol_status (solver g) <> OPTIMAL /\
      tr = mkTierResult (sol_status (solver g)) None [] [] sl) \/
     (sol_status (solver g) = OPTIMAL /\
      tr_assignments tr = flow_assignments g (sol_flow (solver g)) nGroup /\
      length (tr_spots tr) = length sl /\
      ((forall j x, sl !! j = Some x ->
          0 <= x < 2 ^ 63 /\
          Z.of_nat (assigned_to_course j
            (flow_assignments g (sol_flow (solver g)) nGroup)) <= x) ->
       forall j x, sl !! j = Some x ->
         tr_spots tr !! j
         = Some (x - Z.of_nat (assigned_to_course j (tr_assignments tr)))))).
Proof.
  intros Htr. destruct (solve_tier_inv _ _ _ _ _ _ Htr) as [g Hnet].
  exists g. split; [done|].
  destruct (solve_tier_ok solver _ _ _ _ _ Hnet) as (tr' & Htr' & _ & Hfail & Hopt).
  assert (tr' = tr) as -> by congruence.
  destruct (decide (sol_status (solver g) = OPTIMAL)) as [Hst|Hst]; [right|left]; auto.
Qed.

(** What follows holds for any solver that keeps the contract. *)
Section FeasibleSolver.

Variable solver : SimpleMinCostFlow -> Solution.
Hypothesis solver_feasible : solver_contract solver.

(** Under the solver's contract a tier leaves in every course the slots it
    had less the assignments made to it, and none goes below zero. *)
Lemma solve_tier_slots cfg iStart nGroup sl tr :
  Forall int64_nonneg sl ->
  solve_tier solver cfg iStart nGroup sl = Ok tr ->
  length (tr_spots tr) = length sl /\
  Forall int64_nonneg (tr_spots tr) /\
  (forall j x, sl !! j = Some x ->
     Z.of_nat (assigned_to_course j (tr_assignments tr)) <= x /\
     tr_spots tr !! j = Some (x - Z.of_nat (assigned_to_course j (tr_assignments tr)))).
Proof.
  intros Hsl Htr.
  assert (Hacc : length (tr_spots tr) = length sl /\
    forall j x, sl !! j = Some x ->
     Z.of_nat (assigned_to_course j (tr_assignments tr)) <= x /\
     tr_spots tr !! j = Some (x - Z.of_nat (assigned_to_course j (tr_assignments tr)))).
  { destruct (solve_tier_cases _ _ _ _ _ _ Htr)
      as (g & Hnet & [[Hst ->]|(Hst & Hasg & Hlen & Hacc)]); cycle 1.
    - split; [done|].
      assert (Hfit : forall j x, sl !! j = Some x ->
                0 <= x < 2 ^ 63 /\
                Z.of_nat (assigned_to_course j
                  (flow_assignments g (sol_flow (solver g)) nGroup)) <= x).
      { intros j x Hx.
        assert (Hr : int64_nonneg x) by (eapply Forall_lookup_1; eauto).
        split; [done|].
        eapply feasible_course_bound; eauto using build_network_ok. }
      intros j x Hx. split; [|by apply Hacc].
      rewrite Hasg. by apply Hfit.
    - simpl. split; [done|]. intros j x Hx.
      assert (Hr : int64_nonneg x) by (eapply Forall_lookup_1; eauto).
      unfold int64_nonneg in Hr. unfold assigned_to_course. simpl.
      split; [lia|]. rewrite Hx. f_equal. lia. }
  destruct Hacc as [Hlen Hacc]. split_and!; [done| |done].
  apply Forall_lookup. intros j y Hy.
  destruct (lookup_lt_is_Some_2 sl j) as [x Hx].
  { rewrite <- Hlen. by eapply lookup_lt_Some. }
  destruct (Hacc j x Hx) as [Hle Hj].
  assert (Hr : int64_nonneg x) by (eapply Forall_lookup_1; eauto).
  unfold int64_nonneg in *. assert (y = x - Z.of_nat (assigned_to_course j (tr_assignments tr)))
    by congruence. lia.
Qed.

Lemma solve_tiers_slots cfg groups iStart sl :
  Forall int64_nonneg sl ->
  Forall int64_nonneg (run_spots (solve_tiers solver cfg groups iStart sl)) /\
  (forall tr, tr ∈ run_tiers (solve_tiers solver cfg groups iStart sl) ->
     Forall int64_nonneg (tr_spots tr)) /\
  (forall j x, sl !! j = Some x ->
     run_spots (solve_tiers solver cfg groups iStart sl) !! j
     = Some (x - Z.of_nat (course_total j
                 (run_tiers (solve_tiers solver cfg groups iStart sl))))).
Proof.
  revert iStart sl.
  induction groups as [|nGroup groups IH]; intros iStart sl Hsl; simpl.
  - split_and!; [done| |].
    + intros tr Htr. by apply elem_of_nil in Htr.
    + intros j x Hx. rewrite Hx. f_equal. lia.
  - destruct (solve_tier solver cfg iStart nGroup sl) as [tr|e] eqn:Htr; simpl.
    + destruct (solve_tier_slots _ _ _ _ _ Hsl Htr) as (Hlen & Hnn & Hacc).
      destruct (IH (iStart + nGroup)%nat (tr_spots tr) Hnn) as (Hfin & Hall & Hrest).
      split_and!; [done| |].
      * intros tr' Hin. apply elem_of_cons in Hin as [->|Hin]; [done|by apply Hall].
      * intros j x Hx. destruct (Hacc j x Hx) as [_ Hj].
        rewrite (Hrest j _ Hj). f_equal. lia.
    + split_and!; [done| |].
      * intros tr Hin. by apply elem_of_nil in Hin.
      * intros j x Hx. rewrite Hx. f_equal. lia.
Qed.

Lemma solve_tier_ta cfg iStart nGroup sl tr i a :
  solve_tier solver cfg iStart nGroup sl = Ok tr ->
  (i < nGroup)%nat ->
  avail cfg !! (iStart + i)%nat = Some a -> 0 <= a ->
  Z.of_nat (assigned_to_ta i (tr_assignments tr)) <= a.
Proof.
  intros Htr Hi Ha Hnonneg.
  destruct (solve_tier_cases _ _ _ _ _ _ Htr) as (g & Hnet & [[Hst ->]|(Hst & -> & _)]).
  - unfold assigned_to_ta. simpl. lia.
  - eapply feasible_ta_bound; eauto using build_network_ok.
    rewrite slice_lookup by lia. done.
Qed.

Lemma solve_tiers_ta cfg groups iStart sl ta a :
  avail cfg !! (iStart + ta)%nat = Some a -> 0 <= a ->
  Z.of_nat (ta_total groups (run_tiers (solve_tiers solver cfg groups iStart sl)) ta)
  <= a.
Proof.
  revert iStart sl ta.
  induction groups as [|nGroup groups IH]; intros iStart sl ta Ha Hnonneg; simpl;
    [lia|].
  destruct (solve_tier solver cfg iStart nGroup sl) as [tr|e] eqn:Htr; simpl; [|lia].
  destruct (ta <? nGroup)%nat eqn:Hlt.
  - apply Nat.ltb_lt in Hlt. by eapply solve_tier_ta.
  - apply Nat.ltb_ge in Hlt. apply IH; [|done].
    by replace (iStart + nGroup + (ta - nGroup))%nat with (iStart + ta)%nat by lia.
Qed.

End FeasibleSolver.

(** ** Tiers without arcs *)

(** A tier whose network has no arc records no assignment and leaves the
    slots array as it was, whatever the solver answers; the status it
    prints is the solver's. *)
Lemma tier_without_arcs solver cfg iStart nGroup sl g :
  tier_network cfg iStart nGroup sl = Ok g ->
  smcf_arcs g = [] ->
  exists tr,
    solve_tier solver cfg iStart nGroup sl = Ok tr /\
    tr_status tr = sol_status (solver g) /\
    tr_assignments tr = [] /\
    tr_spots tr = sl.
Proof.
  intros Hnet Harcs.
  destruct (solve_tier_ok solver _ _ _ _ _ Hnet) as (tr & Htr & Hstatus & Hfail & _).
  exists tr. split; [done|]. split; [done|].
  destruct (decide (sol_status (solver g) = OPTIMAL)) as [Hst|Hst].
  - unfold tier_network in Hnet. unfold solve_tier in Htr.
    rewrite Hnet in Htr. simpl in Htr. rewrite decide_True in Htr by done.
    unfold num_arcs in Htr. rewrite Harcs in Htr. simpl in Htr.
    apply bind_ok_inv in Htr as (unused & _ & Htr).
    injection Htr as <-. done.
  - by rewrite (Hfail Hst).
Qed.

(** ** The costs of the assignments made *)

Lemma elem_of_used_arcs flow k (arcs : list Arc) a :
  a ∈ used_arcs flow k arcs -> a ∈ arcs.
Proof.
  revert k. induction arcs as [|b arcs IH]; intros k Ha; simpl in Ha; [done|].
  destruct (0 <? flow k).
  - apply elem_of_cons in Ha as [->|Ha]; [apply list_elem_of_here|].
    apply list_elem_of_further. by eapply IH.
  - apply list_elem_of_further. by eapply IH.
Qed.

(** Every assignment a tier makes is along an arc, so the cost the loop
    computed for it is below the threshold. *)
Lemma assigned_costs_below_threshold solver cfg iStart nGroup sl tr x :
  solve_tier solver cfg iStart nGroup sl = Ok tr ->
  x ∈ tr_assignments tr ->
  (asg_cost x < threshold)%Q.
Proof.
  intros Htr Hx.
  destruct (solve_tier_cases _ _ _ _ _ _ Htr)
    as (g & Hnet & [[Hst ->]|(Hst & Hasg & _)]); cycle 1.
  - rewrite Hasg in Hx. unfold flow_assignments in Hx.
    apply list_elem_of_In, in_map_iff in Hx as (a & <- & Ha).
    apply list_elem_of_In, elem_of_used_arcs in Ha.
    apply build_network_ok in Hnet.
    rewrite (built_arcs _ _ _ _ _ _ _ Hnet) in Ha.
    apply elem_of_tier_arcs in Ha as (i & j & tc & _ & _ & _ & Hlt & -> & _).
    simpl. by apply Qltb_lt.
  - simpl in Hx. by apply elem_of_nil in Hx.
Qed.

(** Which status such a tier gets is the solver's answer alone: on the
    network of one unwilling TA and one course with a free slot, a solver
    that reports [INFEASIBLE] and one that reports [OPTIMAL] with no flow
    both keep the contract. *)
Lemma arc_free_status_is_the_solvers :
  tier_network cfg_scenario_b 0 1 (spots cfg_scenario_b) = Ok net_scenario_b /\
  smcf_arcs net_scenario_b = [] /\
  solver_contract (refusing_solver INFEASIBLE) /\
  tr_status <$> run_tiers (solve (refusing_solver INFEASIBLE) cfg_scenario_b) !! 0%nat
  = Some INFEASIBLE /\
  solver_contract (table_solver [(net_scenario_b, [], 0)]) /\
  tr_status <$> run_tiers (solve (table_solver [(net_scenario_b, [], 0)])
                             cfg_scenario_b) !! 0%nat
  = Some OPTIMAL.
Proof.
  split_and!; try (vm_compute; reflexivity).
  - by apply refusing_solver_contract.
  - apply table_solver_contract.
Qed.

(** * The claims *)

(** ** Capacities *)

(** C3. With a solver that returns feasible flows and slot counts that are
    non-negative to begin with, the assignments made to a course over all
    the tiers of the run are at most its original slot count: the slots
    array ends at the original count less the assignments, and neither the
    array printed after each tier nor the final one holds a negative
    value. *)
Theorem course_slots_never_exceeded solver cfg :
  solver_contract solver ->
  Forall int64_nonneg (spots cfg) ->
  (forall j x, spots cfg !! j = Some x ->
     Z.of_nat (course_total j (run_tiers (solve solver cfg))) <= x /\
     run_spots (solve solver cfg) !! j
     = Some (x - Z.of_nat (course_total j (run_tiers (solve solver cfg))))) /\
  (forall tr s, tr ∈ run_tiers (solve solver cfg) -> s ∈ tr_spots tr -> 0 <= s) /\
  (forall s, s ∈ run_spots (solve solver cfg) -> 0 <= s).
Proof.
  intros Hcontract Hsl. unfold solve.
  destruct (solve_tiers_slots solver Hcontract cfg (numTAs cfg) 0 (spots cfg) Hsl)
    as (Hfin & Hall & Hacc).
  split_and!.
  - intros j x Hx. pose proof (Hacc j x Hx) as Hj. split; [|done].
    assert (Hr : int64_nonneg (x - Z.of_nat (course_total j (run_tiers
              (solve_tiers solver cfg (numTAs cfg) 0 (spots cfg))))))
      by (eapply Forall_lookup_1; eauto).
    unfold int64_nonneg in Hr. lia.
  - intros tr s Htr Hs. specialize (Hall tr Htr).
    rewrite Forall_forall in Hall. apply Hall in Hs. unfold int64_nonneg in Hs. lia.
  - intros s Hs. rewrite Forall_forall in Hfin. apply Hfin in Hs.
    unfold int64_nonneg in Hs. lia.
Qed.

(** The two-tier example: course 1 has two slots, gets one assignment and
    ends with one slot. *)
Lemma course_slots_never_exceeded_witness :
  Z.of_nat (course_total 1 (run_tiers (solve solver_two_tiers cfg_two_tiers))) <= 2 /\
  run_spots (solve solver_two_tiers cfg_two_tiers) !! 1%nat = Some 1.
Proof.
  destruct (course_slots_never_exceeded solver_two_tiers cfg_two_tiers) as (H & _).
  - apply table_solver_contract.
  - repeat constructor; done.
  - apply (H 1%nat 2). reflexivity.
Defined.

(** C4. With a solver that returns feasible flows and availabilities that are
    not negative, the assignments the run makes to a TA (the TA at position
    [ta] of the availability sequence, who is TA [ta - iStart] of its tier)
    are at most its availability. *)
Theorem ta_availability_never_exceeded solver cfg ta a :
  solver_contract solver ->
  Forall (fun x => 0 <= x) (avail cfg) ->
  avail cfg !! ta = Some a ->
  Z.of_nat (ta_total (numTAs cfg) (run_tiers (solve solver cfg)) ta) <= a.
Proof.
  intros Hcontract Hav Ha. unfold solve.
  apply (solve_tiers_ta solver Hcontract); [done|].
  eapply (Forall_lookup_1 _ _ _ _ Hav Ha).
Qed.

(** The two-tier example: the MSc student, of availability 1. *)
Lemma ta_availability_never_exceeded_witness :
  Z.of_nat (ta_total (numTAs cfg_two_tiers)
              (run_tiers (solve solver_two_tiers cfg_two_tiers)) 1) <= 1.
Proof.
  apply (ta_availability_never_exceeded solver_two_tiers cfg_two_tiers 1 1).
  - apply table_solver_contract.
  - repeat constructor; done.
  - reflexivity.
Defined.

(** ** Tiers the solver does not solve *)

(** C7. When the solver's status for a tier is anything but [OPTIMAL], the
    tier records no assignment and leaves the slots array as it found it,
    and the loop goes on to the next tier with that same array. *)
Theorem non_optimal_tier_changes_nothing solver cfg iStart nGroup rest sl g :
  tier_network cfg iStart nGroup sl = Ok g ->
  sol_status (solver g) <> OPTIMAL ->
  exists tr,
    solve_tier solver cfg iStart nGroup sl = Ok tr /\
    tr_status tr = sol_status (solver g) /\
    tr_assignments tr = [] /\
    tr_spots tr = sl /\
    solve_tiers solver cfg (nGroup :: rest) iStart sl
    = mkRun (tr :: run_tiers (solve_tiers solver cfg rest (iStart + nGroup) sl))
        (run_spots (solve_tiers solver cfg rest (iStart + nGroup) sl))
        (run_raised (solve_tiers solver cfg rest (iStart + nGroup) sl)).
Proof.
  intros Hnet Hst.
  destruct (solve_tier_ok solver _ _ _ _ _ Hnet) as (tr & Htr & Hstatus & Hfail & _).
  exists tr. specialize (Hfail Hst). subst tr.
  split_and!; [done|done|done|done|].
  simpl. rewrite Htr. done.
Qed.

(** The two-tier example with a solver that answers [INFEASIBLE]. *)
Lemma non_optimal_tier_changes_nothing_witness :
  exists tr,
    solve_tier (refusing_solver INFEASIBLE) cfg_two_tiers 0 1 [1; 2] = Ok tr /\
    tr_status tr = INFEASIBLE /\
    tr_assignments tr = [] /\
    tr_spots tr = [1; 2] /\
    solve_tiers (refusing_solver INFEASIBLE) cfg_two_tiers [1; 1; 0]%nat 0 [1; 2]
    = mkRun (tr :: run_tiers (solve_tiers (refusing_solver INFEASIBLE) cfg_two_tiers
                                [1; 0]%nat 1 [1; 2]))
        (run_spots (solve_tiers (refusing_solver INFEASIBLE) cfg_two_tiers
                      [1; 0]%nat 1 [1; 2]))
        (run_raised (solve_tiers (refusing_solver INFEASIBLE) cfg_two_tiers
                       [1; 0]%nat 1 [1; 2])).
Proof.
  apply (non_optimal_tier_changes_nothing (refusing_solver INFEASIBLE)
           cfg_two_tiers 0 1 [1; 0]%nat [1; 2] net_two_tiers_phd).
  - vm_compute. reflexivity.
  - simpl. discriminate.
Defined.

(** ** The feasibility threshold *)

(** An arc joins TA [i] and course [j] exactly when the combined cost the
    construction loop reads for the pair is below the threshold. *)
Lemma arc_iff_below_threshold sp cp av sl nGroup numClasses g i j tc :
  build_network sp cp av sl nGroup numClasses = Ok g ->
  (i < nGroup)%nat -> (j < numClasses)%nat ->
  totalCost sp cp nGroup i j = Ok tc ->
  ((tc < threshold)%Q -> mkArc i (j + nGroup) 1 tc ∈ smcf_arcs g) /\
  ((threshold <= tc)%Q ->
     forall a, a ∈ smcf_arcs g -> ~ (arc_tail a = i /\ arc_head a = (j + nGroup)%nat)).
Proof.
  intros Hnet Hi Hj Htc. pose proof (build_network_ok _ _ _ _ _ _ _ Hnet) as Hb.
  rewrite (built_arcs _ _ _ _ _ _ _ Hb). split.
  - intros Hlt. apply Qltb_lt in Hlt. apply elem_of_tier_arcs. exists i, j, tc.
    split_and!; [done|done|done|done|done|]. by eapply build_network_ints.
  - intros Hge a Ha [Htail Hhead].
    apply elem_of_tier_arcs in Ha as (i' & j' & tc' & _ & _ & Htc' & Hlt & -> & _).
    simpl in Htail, Hhead. assert (j' = j) by lia. subst i' j'.
    assert (tc' = tc) by congruence. subst tc'.
    apply Qltb_lt in Hlt. by apply Qlt_not_le in Hlt.
Qed.

(** C8, at a tier of two TAs with three courses. The comparison is strict,
    but it is made on the entries at position [i * nGroup + j]. In the first
    configuration the combined cost of TA 1 and course 0, read at position
    [1 * 3 + 0], is [899 + 100], one below the threshold, and the pair gets
    no arc: the loop compares the [900 + 100] of position [1 * 2 + 0]. In
    the second the combined cost of the pair is [900 + 100], the threshold,
    and the pair gets its arc, at the cost 999 of position [1 * 2 + 0]. *)
Theorem boundary_pair_misjudged :
  (studentPrefs cfg_boundary_below !! (1 * 3 + 0)%nat = Some 899%Q /\
   coursePrefs cfg_boundary_below !! (1 * 3 + 0)%nat = Some 100%Q /\
   (899 + 100 == threshold - 1)%Q /\
   exists g,
     tier_network cfg_boundary_below 0 2 (spots cfg_boundary_below) = Ok g /\
     (forall a, a ∈ smcf_arcs g ->
        ~ (arc_tail a = 1%nat /\ arc_head a = (0 + 2)%nat)) /\
     totalCost (studentPrefs cfg_boundary_below) (coursePrefs cfg_boundary_below)
       2 1 0 = Ok (900 + 100)%Q) /\
  (studentPrefs cfg_boundary_at !! (1 * 3 + 0)%nat = Some 900%Q /\
   coursePrefs cfg_boundary_at !! (1 * 3 + 0)%nat = Some 100%Q /\
   (900 + 100 == threshold)%Q /\
   exists g,
     tier_network cfg_boundary_at 0 2 (spots cfg_boundary_at) = Ok g /\
     mkArc 1 (0 + 2) 1 (899 + 100) ∈ smcf_arcs g).
Proof.
  split.
  - split_and!; try reflexivity.
    destruct (tier_network cfg_boundary_below 0 2 (spots cfg_boundary_below))
      as [g|e] eqn:Hnet; [|vm_compute in Hnet; discriminate].
    exists g. split_and!; [done| |reflexivity].
    unfold tier_network in Hnet.
    apply (proj2 (arc_iff_below_threshold _ _ _ _ _ _ g 1 0 (900 + 100)%Q Hnet
                    ltac:(simpl; lia) ltac:(simpl; lia) eq_refl)).
    vm_compute. discriminate.
  - split_and!; try reflexivity.
    destruct (tier_network cfg_boundary_at 0 2 (spots cfg_boundary_at))
      as [g|e] eqn:Hnet; [|vm_compute in Hnet; discriminate].
    exists g. split; [done|].
    unfold tier_network in Hnet.
    apply (proj1 (arc_iff_below_threshold _ _ _ _ _ _ g 1 0 (899 + 100)%Q Hnet
                    ltac:(simpl; lia) ltac:(simpl; lia) eq_refl)).
    reflexivity.
Qed.

(** ** Where the combined cost is read *)

(** The cost on an arc from TA [i] to course [j] is the sum of the two
    preference entries at position [i * nGroup + j] of the tier's slices. *)
Lemma arc_cost_position sp cp av sl nGroup numClasses g a :
  build_network sp cp av sl nGroup numClasses = Ok g ->
  a ∈ smcf_arcs g ->
  exists s c,
    sp !! (arc_tail a * nGroup + (arc_head a - nGroup))%nat = Some s /\
    cp !! (arc_tail a * nGroup + (arc_head a - nGroup))%nat = Some c /\
    arc_unit_cost a = (s + c)%Q.
Proof.
  intros Hnet Ha. apply build_network_ok in Hnet.
  rewrite (built_arcs _ _ _ _ _ _ _ Hnet) in Ha.
  apply elem_of_tier_arcs in Ha as (i & j & tc & _ & _ & Htc & _ & -> & _). simpl.
  replace (j + nGroup - nGroup)%nat with j by lia.
  unfold totalCost in Htc.
  apply bind_ok_inv in Htc as (s & Hs & Htc).
  apply bind_ok_inv in Htc as (c & Hc & Htc).
  injection Htc as <-. apply getitem_ok in Hs, Hc. eauto.
Qed.

(** C1, at a tier of two TAs with three courses. The rows of the preference
    sequences are three entries long, so the costs of TA 1 and course 0 are
    at position [1 * 3 + 0]: 100 and 0. The arc from TA 1 to course 0 (node
    [0 + 2]) carries 50, the entries at position [1 * 2 + 0], which are those
    of TA 0 and course 2. *)
Theorem arc_cost_read_at_group_stride :
  exists g,
    tier_network cfg_stride 0 2 (spots cfg_stride) = Ok g /\
    smcf_arcs g !! 3%nat = Some (mkArc 1 (0 + 2) 1 50) /\
    (forall a, a ∈ smcf_arcs g -> arc_tail a = 1%nat -> arc_head a = (0 + 2)%nat ->
       arc_unit_cost a = 50%Q) /\
    studentPrefs cfg_stride !! (1 * 3 + 0)%nat = Some 100%Q /\
    coursePrefs cfg_stride !! (1 * 3 + 0)%nat = Some 0%Q /\
    studentPrefs cfg_stride !! (1 * 2 + 0)%nat = Some 50%Q /\
    coursePrefs cfg_stride !! (1 * 2 + 0)%nat = Some 0%Q /\
    ~ (50 == 100 + 0)%Q.
Proof.
  destruct (tier_network cfg_stride 0 2 (spots cfg_stride)) as [g|e] eqn:Hnet;
    [|vm_compute in Hnet; discriminate].
  exists g. split; [done|].
  assert (Harcs : smcf_arcs g
            = [mkArc 0 2 1 0; mkArc 0 3 1 25; mkArc 0 4 1 50;
               mkArc 1 2 1 50; mkArc 1 3 1 100; mkArc 1 4 1 25]).
  { vm_compute in Hnet. injection Hnet as <-. reflexivity. }
  rewrite Harcs. split_and!; try reflexivity.
  - intros a Ha Htail Hhead.
    repeat (apply elem_of_cons in Ha as [->|Ha]; [simpl in *; done || lia|]).
    by apply elem_of_nil in Ha.
  - intros Heq. vm_compute in Heq. discriminate.
Qed.

(** C2, at the same shape of tier. TA 1 marks every course as unwilling, so
    the combined cost of TA 1 and course 0 is far above the threshold; the
    loop reads position [1 * 2 + 0], where TA 0 marked course 2 as most
    wanted, and adds the arc. The flow that uses both arcs of the network
    is feasible and no feasible flow sends more on either arc, so it is the
    maximum flow; with it the tier assigns TA 1 to course 0. *)
Theorem unwilling_pair_assigned :
  studentPrefs cfg_unwilling !! (1 * 3 + 0)%nat = Some (rankToCost Unwilling) /\
  coursePrefs cfg_unwilling !! (1 * 3 + 0)%nat = Some (rankToCost MostWanted) /\
  (threshold <= rankToCost Unwilling + rankToCost MostWanted)%Q /\
  tier_network cfg_unwilling 0 2 (spots cfg_unwilling) = Ok net_unwilling /\
  feasible_flow net_unwilling (fun k => nth k [1; 1] 0) /\
  (forall flow, feasible_flow net_unwilling flow ->
     flow 0%nat <= 1 /\ flow 1%nat <= 1) /\
  tr_assignments <$> run_tiers (solve solver_unwilling cfg_unwilling) !! 0%nat
  = Some [mkAssignment 0 2 0; mkAssignment 1 0 0].
Proof.
  split_and!; try (vm_compute; reflexivity).
  - vm_compute. discriminate.
  - apply feasible_flowb_sound. vm_compute. reflexivity.
  - intros flow [Hcap _]. split.
    + apply (Hcap 0%nat (mkArc 0 4 1 0) eq_refl).
    + apply (Hcap 1%nat (mkArc 1 2 1 0) eq_refl).
Qed.

(** ** The cost table *)

(** C9 as stated fails at the unwilling rank: its cost, 1073741822.5, is
    not an integer, and it is below half of the largest 32-bit signed
    integer (and so below half of any larger measure of that range). *)
Lemma sentinel_not_integer_and_below_half :
  (forall z : Z, ~ (rankToCost Unwilling == inject_Z z)%Q) /\
  (rankToCost Unwilling < inject_Z int32_max / 2)%Q /\
  (rankToCost Unwilling < inject_Z (2 ^ 30))%Q.
Proof.
  split_and!.
  - intros z Heq. unfold Qeq in Heq.
    change (Qnum (rankToCost Unwilling)) with 2147483645 in Heq.
    change (QDen (rankToCost Unwilling)) with 2 in Heq.
    simpl in Heq. lia.
  - vm_compute. reflexivity.
  - vm_compute. reflexivity.
Qed.

(** C9, amended. The table maps every rank to a non-negative cost that
    grows strictly as the preference decreases; the costs of the four
    willing ranks are the integers 0, 25, 50 and 100; the cost of the
    unwilling rank is half of the largest 32-bit signed integer less one,
    1073741822.5, which is below that half, at least the threshold on its
    own and, added to itself, below the largest 32-bit signed integer. *)
Theorem cost_table_monotone :
  (forall r, (0 <= rankToCost r)%Q) /\
  (forall r1 r2, (rank_index r1 < rank_index r2)%nat ->
     (rankToCost r1 < rankToCost r2)%Q) /\
  rankToCost MostWanted = inject_Z 0 /\
  rankToCost Wanted = inject_Z 25 /\
  rankToCost SomewhatWanted = inject_Z 50 /\
  rankToCost Willing = inject_Z 100 /\
  (rankToCost Unwilling == inject_Z int32_max / 2 - 1)%Q /\
  (rankToCost Unwilling < inject_Z int32_max / 2)%Q /\
  (threshold <= rankToCost Unwilling)%Q /\
  (rankToCost Unwilling + rankToCost Unwilling < inject_Z int32_max)%Q.
Proof.
  split_and!; try reflexivity.
  - intros []; vm_compute; discriminate.
  - intros [] []; simpl; intros H; try lia; vm_compute; reflexivity.
  - vm_compute. discriminate.
Qed.

(** ** Lookups in and out of range *)

(** In a tier of at most [numClasses] TAs whose preference slices are
    complete, every position the loop reads exists. *)
Lemma lookups_in_range cfg iStart nGroup i j :
  ((iStart + nGroup) * numClasses cfg <= length (studentPrefs cfg))%nat ->
  ((iStart + nGroup) * numClasses cfg <= length (coursePrefs cfg))%nat ->
  (nGroup <= numClasses cfg)%nat ->
  (i < nGroup)%nat -> (j < numClasses cfg)%nat ->
  (i * nGroup + j
   < length (slice (studentPrefs cfg) (iStart * numClasses cfg)
               ((iStart + nGroup) * numClasses cfg)))%nat /\
  exists tc,
    totalCost
      (slice (studentPrefs cfg) (iStart * numClasses cfg) ((iStart + nGroup) * numClasses cfg))
      (slice (coursePrefs cfg) (iStart * numClasses cfg) ((iStart + nGroup) * numClasses cfg))
      nGroup i j = Ok tc.
Proof.
  intros Hsp Hcp Hle Hi Hj.
  assert (Hidx : (i * nGroup + j
            < (iStart + nGroup) * numClasses cfg - iStart * numClasses cfg)%nat) by nia.
  rewrite slice_length by done. split; [done|].
  unfold totalCost.
  destruct (getitem_lt (slice (studentPrefs cfg) (iStart * numClasses cfg)
              ((iStart + nGroup) * numClasses cfg)) (i * nGroup + j)) as [s Hs].
  { by rewrite slice_length. }
  destruct (getitem_lt (slice (coursePrefs cfg) (iStart * numClasses cfg)
              ((iStart + nGroup) * numClasses cfg)) (i * nGroup + j)) as [c Hc].
  { by rewrite slice_length. }
  rewrite Hs, Hc. simpl. eauto.
Qed.

(** The sum of two costs of the table that passes the test is the sum of
    two integers. *)
Lemma table_sum_int (s c : Q) :
  s ∈ costs -> c ∈ costs ->
  Qltb (s + c) threshold = true -> is_int64 (s + c) = true.
Proof.
  unfold costs. intros Hs Hc.
  repeat (apply elem_of_cons in Hs as [->|Hs]); [..|by apply elem_of_nil in Hs];
    repeat (apply elem_of_cons in Hc as [->|Hc]);
    try (by apply elem_of_nil in Hc); vm_compute; tauto.
Qed.

Lemma table_costs_slice (l : list Q) (a b : nat) :
  table_costs l -> table_costs (slice l a b).
Proof. intros H. unfold slice. by apply Forall_take, Forall_drop. Qed.

Lemma totalCost_table sp cp nGroup i j tc :
  table_costs sp -> table_costs cp ->
  totalCost sp cp nGroup i j = Ok tc ->
  Qltb tc threshold = true -> is_int64 tc = true.
Proof.
  intros Hsp Hcp Htc. unfold totalCost in Htc.
  apply bind_ok_inv in Htc as (s & Hs & Htc).
  apply bind_ok_inv in Htc as (c & Hc & Htc). injection Htc as <-.
  apply getitem_ok in Hs, Hc. apply table_sum_int.
  - eapply (Forall_lookup_1 _ _ _ _ Hsp Hs).
  - eapply (Forall_lookup_1 _ _ _ _ Hcp Hc).
Qed.

Lemma totalCost_raise sp cp nGroup i j e :
  totalCost sp cp nGroup i j = Raise e -> e = IndexError.
Proof.
  unfold totalCost. intros H.
  apply bind_raise_inv in H as [H|(s & _ & H)]; [by eapply getitem_raise_inv|].
  apply bind_raise_inv in H as [H|(c & _ & H)]; [by eapply getitem_raise_inv|].
  discriminate.
Qed.

(** With costs of the table the construction raises nothing but
    [IndexError]. *)
Lemma class_body_raise sp cp nGroup i t j e :
  table_costs sp -> table_costs cp ->
  class_body sp cp nGroup i t j = Raise e -> e = IndexError.
Proof.
  intros Hsp Hcp H. unfold class_body in H.
  apply bind_raise_inv in H as [H|(tc & Htc & H)]; [by eapply totalCost_raise|].
  unfold add_arc_with_capacity_and_unit_cost in H.
  destruct (Qltb tc threshold) eqn:Hlt; [|discriminate].
  by rewrite (totalCost_table _ _ _ _ _ _ Hsp Hcp Htc Hlt) in H.
Qed.

Lemma student_body_raise sp cp av nGroup numClasses t i e :
  table_costs sp -> table_costs cp ->
  student_body sp cp av nGroup numClasses t i = Raise e -> e = IndexError.
Proof.
  intros Hsp Hcp H. unfold student_body in H.
  apply bind_raise_inv in H as [H|(h & _ & H)].
  - apply for_range_raise_inv in H as (k & t' & _ & H).
    apply (class_body_raise _ _ _ _ _ _ _ Hsp Hcp H).
  - apply bind_raise_inv in H as [H|(a & _ & H)]; [by eapply getitem_raise_inv|].
    discriminate.
Qed.

Lemma course_body_raise sl nGroup t j e :
  course_body sl nGroup t j = Raise e -> e = IndexError.
Proof.
  unfold course_body. intros H.
  apply bind_raise_inv in H as [H|(s & _ & H)]; [by eapply getitem_raise_inv|].
  discriminate.
Qed.

Lemma build_network_raise sp cp av sl nGroup numClasses e :
  table_costs sp -> table_costs cp ->
  build_network sp cp av sl nGroup numClasses = Raise e -> e = IndexError.
Proof.
  intros Hsp Hcp H. unfold build_network in H.
  apply bind_raise_inv in H as [H|(h & _ & H)].
  - apply for_range_raise_inv in H as (k & t & _ & H).
    apply (student_body_raise _ _ _ _ _ _ _ _ Hsp Hcp H).
  - apply for_range_raise_inv in H as (k & t & _ & H).
    apply (course_body_raise _ _ _ _ _ H).
Qed.

Lemma tier_network_total cfg iStart nGroup sl :
  table_costs (studentPrefs cfg) ->
  table_costs (coursePrefs cfg) ->
  ((iStart + nGroup) * numClasses cfg <= length (studentPrefs cfg))%nat ->
  ((iStart + nGroup) * numClasses cfg <= length (coursePrefs cfg))%nat ->
  (iStart + nGroup <= length (avail cfg))%nat ->
  (numClasses cfg <= length sl)%nat ->
  (nGroup <= numClasses cfg)%nat ->
  exists g, tier_network cfg iStart nGroup sl = Ok g.
Proof.
  intros Htsp Htcp Hsp Hcp Hav Hsl Hle. unfold tier_network.
  apply build_network_total; [|rewrite slice_length by done; lia|done].
  intros i j Hi Hj.
  destruct (lookups_in_range cfg iStart nGroup i j) as [_ [tc Htc]]; try done.
  exists tc. split; [done|].
  apply (totalCost_table _ _ _ _ _ _ (table_costs_slice _ _ _ Htsp)
           (table_costs_slice _ _ _ Htcp) Htc).
Qed.

(** A tier of more TAs than there are courses reads past the end of its
    preference slice at its last TA and last course, if not before. *)
Lemma crowded_tier_raises cfg iStart nGroup sl :
  table_costs (studentPrefs cfg) ->
  table_costs (coursePrefs cfg) ->
  (1 <= numClasses cfg)%nat ->
  (numClasses cfg < nGroup)%nat ->
  tier_network cfg iStart nGroup sl = Raise IndexError.
Proof.
  intros Htsp Htcp Hnc Hgt. unfold tier_network, build_network.
  pose proof (table_costs_slice _ (iStart * numClasses cfg)
                ((iStart + nGroup) * numClasses cfg) Htsp) as Hsp.
  pose proof (table_costs_slice _ (iStart * numClasses cfg)
                ((iStart + nGroup) * numClasses cfg) Htcp) as Hcp.
  rewrite (for_range_raise _ nGroup (nGroup - 1) _ IndexError); [done|lia| |].
  - intros t. unfold student_body.
    rewrite (for_range_raise _ (numClasses cfg) (numClasses cfg - 1) _ IndexError);
      [done|lia| |].
    + intros t'. unfold class_body, totalCost.
      rewrite getitem_raise; [done|].
      pose proof (slice_length_le (studentPrefs cfg) (iStart * numClasses cfg)
                    ((iStart + nGroup) * numClasses cfg)).
      nia.
    + intros k t' e _ Hbody. apply (class_body_raise _ _ _ _ _ _ _ Hsp Hcp Hbody).
  - intros k t e _ Hbody. apply (student_body_raise _ _ _ _ _ _ _ _ Hsp Hcp Hbody).
Qed.

Lemma solve_tier_spots_length solver cfg iStart nGroup sl tr :
  solve_tier solver cfg iStart nGroup sl = Ok tr ->
  length (tr_spots tr) = length sl.
Proof.
  intros Htr.
  by destruct (solve_tier_cases _ _ _ _ _ _ Htr)
    as (g & Hnet & [[Hst ->]|(Hst & _ & Hlen & _)]).
Qed.

(** The loop stops at the first tier that raises: it has one result per
    tier when nothing was raised and fewer otherwise. *)
Lemma solve_tiers_results solver cfg groups iStart sl :
  (run_raised (solve_tiers solver cfg groups iStart sl) = None ->
   length (run_tiers (solve_tiers solver cfg groups iStart sl)) = length groups) /\
  (forall e, run_raised (solve_tiers solver cfg groups iStart sl) = Some e ->
   (length (run_tiers (solve_tiers solver cfg groups iStart sl)) < length groups)%nat).
Proof.
  revert iStart sl. induction groups as [|nGroup groups IH]; intros iStart sl; simpl.
  - split; [done|]. intros e He. discriminate.
  - destruct (solve_tier solver cfg iStart nGroup sl) as [tr|e']; simpl.
    + destruct (IH (iStart + nGroup)%nat (tr_spots tr)) as [Hnone Hsome].
      split; [intros H; by rewrite Hnone|].
      intros e He. specialize (Hsome e He). lia.
    + split; [discriminate|]. intros e _. lia.
Qed.

Lemma solve_tiers_raise solver cfg nGroup rest iStart sl e :
  tier_network cfg iStart nGroup sl = Raise e ->
  solve_tiers solver cfg (nGroup :: rest) iStart sl = mkRun [] sl (Some e).
Proof. intros Hnet. simpl. by rewrite (solve_tier_raise solver _ _ _ _ _ Hnet). Qed.

Lemma solve_tiers_total solver cfg groups iStart sl :
  table_costs (studentPrefs cfg) ->
  table_costs (coursePrefs cfg) ->
  ((iStart + sum_list groups) * numClasses cfg <= length (studentPrefs cfg))%nat ->
  ((iStart + sum_list groups) * numClasses cfg <= length (coursePrefs cfg))%nat ->
  (iStart + sum_list groups <= length (avail cfg))%nat ->
  (numClasses cfg <= length sl)%nat ->
  Forall (fun nGroup => (nGroup <= numClasses cfg)%nat) groups ->
  run_raised (solve_tiers solver cfg groups iStart sl) = None.
Proof.
  intros Htsp Htcp. revert iStart sl.
  induction groups as [|nGroup groups IH]; intros iStart sl Hsp Hcp Hav Hsl Hle;
    simpl in *; [done|].
  apply Forall_cons in Hle as [Hle Hrest].
  destruct (tier_network_total cfg iStart nGroup sl) as [g Hnet];
    [done|done|nia|nia|lia|done|done|].
  destruct (solve_tier_ok solver _ _ _ _ _ Hnet) as (tr & Htr & _).
  rewrite Htr. simpl. apply IH; [nia|nia|lia| |done].
  by rewrite (solve_tier_spots_length _ _ _ _ _ _ Htr).
Qed.

(** C10. There is a well-formed configuration with more PhD students than
    courses on which the loop reads position [iStudent * nGroup + iClass]
    at or past the length [nGroup * numClasses] of the tier's slice, and
    [solve] stops with [IndexError] before any tier has a network; and in
    every tier of a well-formed configuration that has at most [numClasses]
    TAs, every position read is inside the slice and the lookup succeeds. *)
Theorem group_stride_lookup_range :
  (exists cfg,
     well_formed cfg /\
     (numClasses cfg < numPhDs cfg)%nat /\
     (exists iStudent iClass,
        (iStudent < numPhDs cfg)%nat /\ (iClass < numClasses cfg)%nat /\
        length (slice (studentPrefs cfg) (0 * numClasses cfg)
                  ((0 + numPhDs cfg) * numClasses cfg))
        = (numPhDs cfg * numClasses cfg)%nat /\
        (numPhDs cfg * numClasses cfg <= iStudent * numPhDs cfg + iClass)%nat) /\
     tier_network cfg 0 (numPhDs cfg) (spots cfg) = Raise IndexError /\
     forall solver, solve solver cfg = mkRun [] (spots cfg) (Some IndexError)) /\
  (forall cfg iStart nGroup i j,
     well_formed cfg ->
     (iStart + nGroup <= totTAs cfg)%nat ->
     (nGroup <= numClasses cfg)%nat ->
     (i < nGroup)%nat -> (j < numClasses cfg)%nat ->
     (i * nGroup + j
      < length (slice (studentPrefs cfg) (iStart * numClasses cfg)
                  ((iStart + nGroup) * numClasses cfg)))%nat /\
     exists tc,
       totalCost
         (slice (studentPrefs cfg) (iStart * numClasses cfg)
            ((iStart + nGroup) * numClasses cfg))
         (slice (coursePrefs cfg) (iStart * numClasses cfg)
            ((iStart + nGroup) * numClasses cfg))
         nGroup i j = Ok tc).
Proof.
  split.
  - exists cfg_crowded.
    assert (Hraise : tier_network cfg_crowded 0 2 [2] = Raise IndexError).
    { apply crowded_tier_raises; try (simpl; lia);
        unfold table_costs; simpl; repeat constructor. }
    split_and!.
    + split; try reflexivity; repeat constructor; done.
    + simpl. lia.
    + exists 1%nat, 0%nat. simpl. split_and!; lia.
    + exact Hraise.
    + intros solver. unfold solve. by apply solve_tiers_raise.
  - intros cfg iStart nGroup i j Hwf Htier Hle Hi Hj.
    destruct Hwf as [_ _ Hsp Hcp _ _].
    apply lookups_in_range; [rewrite Hsp; nia|rewrite Hcp; nia|done|done|done].
Qed.

(** The MSc tier of the two-tier example, its TA and course 1. *)
Lemma group_stride_lookup_range_witness :
  (0 * 1 + 1 < length (slice (studentPrefs cfg_two_tiers) (1 * 2) ((1 + 1) * 2)))%nat /\
  exists tc,
    totalCost (slice (studentPrefs cfg_two_tiers) (1 * 2) ((1 + 1) * 2))
      (slice (coursePrefs cfg_two_tiers) (1 * 2) ((1 + 1) * 2)) 1 0 1 = Ok tc.
Proof.
  apply (proj2 group_stride_lookup_range cfg_two_tiers 1 1 0 1)%nat.
  - split; try reflexivity; repeat constructor; done.
  - unfold totTAs. simpl. lia.
  - simpl. lia.
  - lia.
  - simpl. lia.
Defined.

(** ** No validation of the configuration *)

(** C5 as stated fails: with a negative availability, a negative slot
    count and preference sequences of the wrong length, the run raises
    nothing, whatever the solver; every tier is built and solved, and with
    a solver that returns a feasible flow the first tier makes an
    assignment. *)
Lemma negative_configuration_runs :
  -1 ∈ avail cfg_negative /\
  -1 ∈ spots cfg_negative /\
  length (studentPrefs cfg_negative)
  <> (totTAs cfg_negative * numClasses cfg_negative)%nat /\
  length (coursePrefs cfg_negative)
  <> (totTAs cfg_negative * numClasses cfg_negative)%nat /\
  (forall solver,
     run_raised (solve solver cfg_negative) = None /\
     length (run_tiers (solve solver cfg_negative)) = 3%nat) /\
  solver_contract solver_negative /\
  tr_assignments <$> run_tiers (solve solver_negative cfg_negative) !! 0%nat
  = Some [mkAssignment 0 0 0].
Proof.
  split_and!.
  - set_solver.
  - set_solver.
  - simpl. lia.
  - simpl. lia.
  - intros solver.
    assert (Hnone : run_raised (solve solver cfg_negative) = None).
    { unfold solve. apply solve_tiers_total; try (simpl; lia).
      - unfold table_costs. simpl. repeat constructor.
      - unfold table_costs. simpl. repeat constructor.
      - repeat constructor; simpl; lia. }
    split; [done|].
    by apply (proj1 (solve_tiers_results solver cfg_negative (numTAs cfg_negative)
                       0 (spots cfg_negative))).
  - apply table_solver_contract.
  - vm_compute. reflexivity.
Qed.

(** C5, amended. Nothing is checked before the tiers run: a negative
    availability or slot count, or preference sequences longer than the
    tiers need, do not stop the run. Whatever the signs of the availabilities
    and slot counts, a configuration whose preference entries are costs of
    the table, whose sequences are long enough and whose tiers have at most
    [numClasses] TAs each runs its three tiers to the end without an
    exception. *)
Theorem run_completes_whatever_the_signs solver cfg :
  table_costs (studentPrefs cfg) ->
  table_costs (coursePrefs cfg) ->
  (totTAs cfg <= length (avail cfg))%nat ->
  (numClasses cfg <= length (spots cfg))%nat ->
  (totTAs cfg * numClasses cfg <= length (studentPrefs cfg))%nat ->
  (totTAs cfg * numClasses cfg <= length (coursePrefs cfg))%nat ->
  Forall (fun nGroup => (nGroup <= numClasses cfg)%nat) (numTAs cfg) ->
  run_raised (solve solver cfg) = None /\
  length (run_tiers (solve solver cfg)) = 3%nat.
Proof.
  intros Htsp Htcp Hav Hsl Hsp Hcp Hle.
  assert (Hnone : run_raised (solve solver cfg) = None).
  { unfold solve, totTAs in *.
    assert (Hsum : (0 + sum_list (numTAs cfg))%nat
                   = (numPhDs cfg + numMSCs cfg + numOther cfg)%nat)
      by (simpl; lia).
    apply solve_tiers_total; rewrite ?Hsum; done. }
  split; [done|].
  by apply (proj1 (solve_tiers_results solver cfg (numTAs cfg) 0 (spots cfg))).
Qed.

(** The configuration with a negative availability and a negative slot
    count. *)
Lemma run_completes_whatever_the_signs_witness :
  run_raised (solve solver_negative cfg_negative) = None /\
  length (run_tiers (solve solver_negative cfg_negative)) = 3%nat.
Proof.
  apply (run_completes_whatever_the_signs solver_negative cfg_negative).
  - unfold table_costs. simpl. repeat constructor.
  - unfold table_costs. simpl. repeat constructor.
  - unfold totTAs. simpl. lia.
  - simpl. lia.
  - unfold totTAs. simpl. lia.
  - unfold totTAs. simpl. lia.
  - repeat constructor; simpl; lia.
Defined.

(** * Further properties of [solve] *)

(** ** When a tier's network can be built *)

(** X1. With preference entries that are costs of the table, the
    construction of a tier's network succeeds exactly when the availability
    slice has an entry for every TA, the slots array has an entry for every
    course and, if the tier has a TA and there is a course, both preference
    slices reach the last position read,
    [(nGroup - 1) * nGroup + numClasses - 1]; in every other case it raises
    [IndexError]. *)
Theorem build_network_succeeds_iff sp cp av sl nGroup numClasses :
  table_costs sp ->
  table_costs cp ->
  ((exists g, build_network sp cp av sl nGroup numClasses = Ok g) <->
   (nGroup <= length av)%nat /\ (numClasses <= length sl)%nat /\
   (nGroup = 0%nat \/ numClasses = 0%nat \/
    ((nGroup - 1) * nGroup + numClasses <= length sp)%nat /\
    ((nGroup - 1) * nGroup + numClasses <= length cp)%nat)) /\
  ((forall g, build_network sp cp av sl nGroup numClasses <> Ok g) ->
   build_network sp cp av sl nGroup numClasses = Raise IndexError).
Proof.
  intros Htsp Htcp. split; [split|].
  - intros [g Hnet]. apply build_network_ok in Hnet as Hb.
    destruct (built_lengths _ _ _ _ _ _ _ Hb) as [Hav Hsl].
    split_and!; [done|done|].
    destruct nGroup as [|n]; [by left|]. destruct numClasses as [|c]; [by right; left|].
    right; right.
    destruct (built_lookups _ _ _ _ _ _ _ Hb n c) as [tc Htc]; [lia|lia|].
    unfold totalCost in Htc.
    apply bind_ok_inv in Htc as (s & Hs & Htc).
    apply bind_ok_inv in Htc as (c' & Hc & _).
    apply getitem_ok, lookup_lt_Some in Hs, Hc.
    replace (S n - 1)%nat with n by lia. lia.
  - intros (Hav & Hsl & Hprefs). apply build_network_total; [|done|done].
    intros i j Hi Hj.
    destruct Hprefs as [->|[->|[Hsp Hcp]]]; [lia|lia|].
    assert (i * nGroup + j < (nGroup - 1) * nGroup + numClasses)%nat by nia.
    destruct (getitem_lt sp (i * nGroup + j)) as [s Hs]; [lia|].
    destruct (getitem_lt cp (i * nGroup + j)) as [c Hc]; [lia|].
    assert (Htc : totalCost sp cp nGroup i j = Ok (s + c)%Q).
    { unfold totalCost. by rewrite Hs, Hc. }
    exists (s + c)%Q. split; [done|].
    apply (totalCost_table _ _ _ _ _ _ Htsp Htcp Htc).
  - intros Hnot.
    destruct (build_network sp cp av sl nGroup numClasses) as [g|e] eqn:Hnet.
    + by destruct (Hnot g).
    + by rewrite (build_network_raise _ _ _ _ _ _ _ Htsp Htcp Hnet).
Qed.

(** One TA and two courses, with complete slices. *)
Lemma build_network_succeeds_iff_witness :
  exists g, build_network [0; 25]%Q [0; 0]%Q [1] [1; 1] 1 2 = Ok g.
Proof.
  apply (proj2 (proj1 (build_network_succeeds_iff
                         [0; 25]%Q [0; 0]%Q [1] [1; 1] 1 2
                         ltac:(unfold table_costs; repeat constructor)
                         ltac:(unfold table_costs; repeat constructor)))).
  simpl. split_and!; [lia|lia|]. right; right. lia.
Defined.

(** X2. A tier with more TAs than there are courses, when there is a course
    at all, cannot be built when the preference entries are costs of the
    table: the loop stops with [IndexError], the tier and the tiers after it
    print nothing and the slots array stays as it was. *)
Theorem crowded_tier_stops_the_run solver cfg nGroup rest iStart sl :
  table_costs (studentPrefs cfg) ->
  table_costs (coursePrefs cfg) ->
  (1 <= numClasses cfg)%nat ->
  (numClasses cfg < nGroup)%nat ->
  tier_network cfg iStart nGroup sl = Raise IndexError /\
  solve_tiers solver cfg (nGroup :: rest) iStart sl = mkRun [] sl (Some IndexError).
Proof.
  intros Htsp Htcp Hnc Hgt.
  assert (Hraise : tier_network cfg iStart nGroup sl = Raise IndexError)
    by (by apply crowded_tier_raises).
  split; [done|]. by apply solve_tiers_raise.
Qed.

(** Two TAs for one course with two slots. *)
Lemma crowded_tier_stops_the_run_witness :
  tier_network cfg_crowded 0 2 [2] = Raise IndexError /\
  solve_tiers (refusing_solver INFEASIBLE) cfg_crowded [2; 0; 0]%nat 0 [2]
  = mkRun [] [2] (Some IndexError).
Proof.
  apply (crowded_tier_stops_the_run (refusing_solver INFEASIBLE) cfg_crowded
           2 [0; 0]%nat 0 [2]);
    [unfold table_costs; simpl; repeat constructor
    |unfold table_costs; simpl; repeat constructor
    |simpl; lia|simpl; lia].
Defined.

(** X3. Once a tier's network is built the tier runs to its end, whatever
    the solver answers, be it a flow that no network allows: every index
    the extraction and the report use is in range. The status printed is the
    solver's and the slots array keeps its length. *)
Theorem built_tier_never_raises solver cfg iStart nGroup sl g :
  tier_network cfg iStart nGroup sl = Ok g ->
  exists tr,
    solve_tier solver cfg iStart nGroup sl = Ok tr /\
    tr_status tr = sol_status (solver g) /\
    length (tr_spots tr) = length sl.
Proof.
  intros Hnet.
  destruct (solve_tier_ok solver _ _ _ _ _ Hnet) as (tr & Htr & Hstatus & _).
  exists tr. split_and!; [done|done|].
  by apply (solve_tier_spots_length solver cfg iStart nGroup).
Qed.

(** The PhD tier of the two-tier example, with a solver that claims a flow
    of 7 on every arc. *)
Lemma built_tier_never_raises_witness :
  exists tr,
    solve_tier (flooding_solver 7) cfg_two_tiers 0 1 [1; 2] = Ok tr /\
    tr_status tr = OPTIMAL /\
    length (tr_spots tr) = 2%nat.
Proof.
  apply (built_tier_never_raises (flooding_solver 7) cfg_two_tiers 0 1 [1; 2]
           net_two_tiers_phd).
  vm_compute. reflexivity.
Defined.

(** ** The shape of a tier's network *)

Lemma all_pairs_length nGroup numClasses :
  length (all_pairs nGroup numClasses) = (nGroup * numClasses)%nat.
Proof.
  unfold all_pairs. induction nGroup as [|n IH]; [done|].
  rewrite flat_map_range_succ, length_app, IH, length_map.
  unfold range. rewrite length_seq. lia.
Qed.

Lemma all_pairs_NoDup nGroup numClasses : NoDup (all_pairs nGroup numClasses).
Proof.
  unfold all_pairs.
  change (NoDup (range nGroup ≫= fun i => (fun j => (i, j)) <$> range numClasses)).
  apply NoDup_bind.
  - intros i1 i2 [i j] _ _ H1 H2.
    apply list_elem_of_fmap in H1 as (j1 & [= -> ->] & _).
    by apply list_elem_of_fmap in H2 as (j2 & [= -> _] & _).
  - intros i _. apply NoDup_fmap_2; [by intros j1 j2 [= ->]|]. apply NoDup_seq.
  - apply NoDup_seq.
Qed.

Lemma elem_of_all_pairs nGroup numClasses i j :
  (i, j) ∈ all_pairs nGroup numClasses <-> (i < nGroup)%nat /\ (j < numClasses)%nat.
Proof.
  unfold all_pairs, range. rewrite list_elem_of_In, in_flat_map. split.
  - intros (i' & Hi & Hin). apply in_map_iff in Hin as (j' & [= -> ->] & Hj).
    apply in_seq in Hi, Hj. lia.
  - intros [Hi Hj]. exists i. split; [apply in_seq; lia|].
    apply in_map_iff. exists j. split; [done|]. apply in_seq. lia.
Qed.

(** The arcs of a tier follow the order of the two loops and there is at
    most one for each pair. *)
Lemma tier_arcs_sublist sp cp nGroup numClasses :
  map (arc_pair nGroup) (tier_arcs sp cp nGroup numClasses)
  `sublist_of` all_pairs nGroup numClasses.
Proof.
  unfold tier_arcs, all_pairs.
  induction (range nGroup) as [|i l IH]; simpl; [done|].
  rewrite map_app. apply sublist_app; [|done].
  unfold student_arcs. clear IH.
  induction (range numClasses) as [|j l' IH]; simpl; [done|].
  rewrite map_app. unfold pair_arcs at 1.
  destruct (totalCost sp cp nGroup i j) as [tc|e]; simpl; [|by apply sublist_cons].
  destruct (Qltb tc threshold && is_int64 tc); simpl; [|by apply sublist_cons].
  unfold arc_pair at 1. simpl.
  replace (j + nGroup - nGroup)%nat with j by lia. by apply sublist_skip.
Qed.

(** X4. The network of a tier is bipartite and simple: every arc has
    capacity 1, leaves a TA node (below [nGroup]) and enters a course node
    (from [nGroup] up to [nGroup + numClasses]); the arcs come TA by TA and
    course by course, no two of them join the same TA and course, and there
    are at most [nGroup * numClasses] of them. *)
Theorem network_is_bipartite_and_simple sp cp av sl nGroup numClasses g :
  build_network sp cp av sl nGroup numClasses = Ok g ->
  (forall a, a ∈ smcf_arcs g ->
     arc_capacity a = 1 /\ (arc_tail a < nGroup)%nat /\
     (nGroup <= arc_head a < nGroup + numClasses)%nat) /\
  map (arc_pair nGroup) (smcf_arcs g) `sublist_of` all_pairs nGroup numClasses /\
  NoDup (map (arc_pair nGroup) (smcf_arcs g)) /\
  (num_arcs g <= nGroup * numClasses)%nat.
Proof.
  intros Hnet. apply build_network_ok in Hnet as Hb.
  assert (Hsub : map (arc_pair nGroup) (smcf_arcs g)
                 `sublist_of` all_pairs nGroup numClasses).
  { rewrite (built_arcs _ _ _ _ _ _ _ Hb). apply tier_arcs_sublist. }
  split_and!.
  - intros a Ha. destruct (built_shape _ _ _ _ _ _ _ _ Hb Ha) as (? & ? & ? & ?).
    split_and!; [done|done|lia|lia].
  - done.
  - eapply sublist_NoDup; [apply all_pairs_NoDup|done].
  - apply sublist_length in Hsub.
    rewrite length_map, all_pairs_length in Hsub. done.
Qed.

(** The tier of two TAs and three courses. *)
Lemma network_is_bipartite_and_simple_witness :
  exists g,
    tier_network cfg_stride 0 2 (spots cfg_stride) = Ok g /\
    NoDup (map (arc_pair 2) (smcf_arcs g)) /\
    (num_arcs g <= 2 * 3)%nat.
Proof.
  destruct (tier_network cfg_stride 0 2 (spots cfg_stride)) as [g|e] eqn:Hnet;
    [|vm_compute in Hnet; discriminate].
  exists g. split; [done|]. unfold tier_network in Hnet.
  destruct (network_is_bipartite_and_simple _ _ _ _ _ _ g Hnet) as (_ & _ & Hnd & Hn).
  by split.
Defined.

Lemma course_loop_frame sl nGroup numClasses g g' n :
  for_each (range numClasses) (course_body sl nGroup) g = Ok g' ->
  (nGroup + numClasses <= n)%nat ->
  smcf_supply g' !! n = smcf_supply g !! n.
Proof.
  intros Hrun Hn. revert Hrun.
  apply (for_range_inv _ (fun _ h => smcf_supply h !! n = smcf_supply g !! n));
    [done|].
  intros k t t' Hk IH Hbody. unfold course_body in Hbody.
  apply bind_ok_inv in Hbody as (s & _ & Hbody). injection Hbody as <-. simpl.
  rewrite lookup_insert_ne by lia. done.
Qed.

(** X5. The supplies of a tier's network: the node of TA [i] has the TA's
    availability, the node of course [j], which is node [j + nGroup], has the
    course's slots negated as a 64-bit integer, and no node from
    [nGroup + numClasses] on is given a supply. Setting the courses' supplies
    overwrites no TA's. *)
Theorem supplies_of_the_network sp cp av sl nGroup numClasses g :
  build_network sp cp av sl nGroup numClasses = Ok g ->
  (forall i, (i < nGroup)%nat ->
     exists a, av !! i = Some a /\ smcf_supply g !! i = Some a /\ supply g i = a) /\
  (forall j, (j < numClasses)%nat ->
     exists s, sl !! j = Some s /\
               smcf_supply g !! (j + nGroup)%nat = Some (wrap64 (- s)) /\
               supply g (j + nGroup) = wrap64 (- s) /\
               (int64_nonneg s -> supply g (j + nGroup) = - s)) /\
  (forall n, (nGroup + numClasses <= n)%nat -> smcf_supply g !! n = None).
Proof.
  intros Hnet. apply build_network_ok in Hnet as Hb. split_and!.
  - intros i Hi. destruct (built_ta_supply _ _ _ _ _ _ _ Hb i Hi) as (a & Ha & Hs).
    exists a. split_and!; [done|done|]. unfold supply. by rewrite Hs.
  - intros j Hj.
    destruct (built_course_supply _ _ _ _ _ _ _ Hb j Hj) as (s & Hs & Hsup).
    replace (-1 * s) with (- s) in Hsup by lia.
    exists s. split_and!; [done|done| |]; unfold supply; rewrite Hsup; simpl; [done|].
    intros Hr. unfold int64_nonneg in Hr. apply wrap64_id. lia.
  - intros n Hn. unfold build_network in Hnet.
    apply bind_ok_inv in Hnet as (h & Hstudents & Hcourses).
    apply student_loop_ok in Hstudents as (_ & _ & Hnone & _).
    rewrite (course_loop_frame _ _ _ _ _ _ Hcourses Hn). apply Hnone. lia.
Qed.

(** The PhD tier of the two-tier example: the TA has availability 1,
    course 1 has two slots, and node 5 was given no supply. *)
Lemma supplies_of_the_network_witness :
  supply net_two_tiers_phd 0 = 1 /\
  supply net_two_tiers_phd (1 + 1) = - 2 /\
  smcf_supply net_two_tiers_phd !! 5%nat = None.
Proof.
  assert (Hnet : tier_network cfg_two_tiers 0 1 [1; 2] = Ok net_two_tiers_phd)
    by (vm_compute; reflexivity).
  unfold tier_network in Hnet.
  destruct (supplies_of_the_network _ _ _ _ _ _ _ Hnet) as (Hta & Hco & Hout).
  split_and!.
  - destruct (Hta 0%nat) as (a & Ha & _ & Hs); [lia|].
    vm_compute in Ha. injection Ha as <-. exact Hs.
  - destruct (Hco 1%nat) as (s & Hs & _ & _ & Hneg); [simpl; lia|].
    simpl in Hs. injection Hs as <-. apply Hneg. unfold int64_nonneg. lia.
  - apply (Hout 5%nat). simpl. lia.
Defined.

(** ** The assignments a tier prints *)

Lemma used_arcs_sublist flow k (arcs : list Arc) :
  used_arcs flow k arcs `sublist_of` arcs.
Proof.
  revert k. induction arcs as [|a arcs IH]; intros k; simpl; [done|].
  destruct (0 <? flow k); [by apply sublist_skip | by apply sublist_cons].
Qed.

Lemma sublist_map {A B : Type} (f : A -> B) (l k : list A) :
  l `sublist_of` k -> map f l `sublist_of` map f k.
Proof.
  induction 1; simpl; [done | by apply sublist_skip | by apply sublist_cons].
Qed.

Lemma flow_assignments_pairs g flow nGroup :
  map asg_pair (flow_assignments g flow nGroup)
  = map (arc_pair nGroup) (used_arcs flow 0 (smcf_arcs g)).
Proof.
  unfold flow_assignments. rewrite map_map. apply map_ext.
  intros a. unfold asg_pair, assignment_of, arc_pair. simpl. f_equal. lia.
Qed.

(** X6. Whatever the solver answers, every assignment a tier prints is
    between a TA of the tier and a course of the configuration, and its cost
    is the sum of the two preference entries the construction loop read for
    the pair, which is below the threshold. *)
Theorem assignments_come_from_arcs solver cfg iStart nGroup sl tr x :
  solve_tier solver cfg iStart nGroup sl = Ok tr ->
  x ∈ tr_assignments tr ->
  (asg_ta x < nGroup)%nat /\
  0 <= asg_course x < Z.of_nat (numClasses cfg) /\
  totalCost
    (slice (studentPrefs cfg) (iStart * numClasses cfg) ((iStart + nGroup) * numClasses cfg))
    (slice (coursePrefs cfg) (iStart * numClasses cfg) ((iStart + nGroup) * numClasses cfg))
    nGroup (asg_ta x) (Z.to_nat (asg_course x)) = Ok (asg_cost x) /\
  (asg_cost x < threshold)%Q.
Proof.
  intros Htr Hx.
  destruct (solve_tier_cases _ _ _ _ _ _ Htr)
    as (g & Hnet & [[Hst ->]|(Hst & Hasg & _)]).
  { simpl in Hx. by apply elem_of_nil in Hx. }
  rewrite Hasg in Hx. unfold flow_assignments in Hx.
  apply list_elem_of_In, in_map_iff in Hx as (a & <- & Ha).
  apply list_elem_of_In, elem_of_used_arcs in Ha.
  apply build_network_ok in Hnet.
  rewrite (built_arcs _ _ _ _ _ _ _ Hnet) in Ha.
  apply elem_of_tier_arcs in Ha as (i & j & tc & Hi & Hj & Htc & Hlt & -> & _).
  unfold assignment_of. simpl.
  replace (Z.to_nat (Z.of_nat (j + nGroup) - Z.of_nat nGroup)) with j by lia.
  split_and!; [done|lia|lia|done|by apply Qltb_lt].
Qed.

(** The two-tier example: the assignment of the PhD tier. *)
Lemma assignments_come_from_arcs_witness :
  (0 < 1)%nat /\ 0 <= 0 < 2 /\ (0 < threshold)%Q.
Proof.
  destruct (assignments_come_from_arcs solver_two_tiers cfg_two_tiers 0 1 [1; 2]
              (mkTierResult OPTIMAL (Some 0) [mkAssignment 0 0 0] [] [0; 2])
              (mkAssignment 0 0 0)) as (Hta & Hco & _ & Hcost).
  - vm_compute. reflexivity.
  - simpl. apply list_elem_of_here.
  - split; [exact Hta|]. split; [exact Hco | exact Hcost].
Defined.

(** X7. Whatever the solver answers, a tier assigns no TA to the same
    course twice, and it prints its assignments TA by TA and, for one TA,
    course by course; there are at most [nGroup * numClasses] of them. *)
Theorem no_pair_assigned_twice solver cfg iStart nGroup sl tr :
  solve_tier solver cfg iStart nGroup sl = Ok tr ->
  map asg_pair (tr_assignments tr) `sublist_of` all_pairs nGroup (numClasses cfg) /\
  NoDup (map asg_pair (tr_assignments tr)) /\
  (length (tr_assignments tr) <= nGroup * numClasses cfg)%nat.
Proof.
  intros Htr.
  assert (Hsub : map asg_pair (tr_assignments tr)
                 `sublist_of` all_pairs nGroup (numClasses cfg)).
  { destruct (solve_tier_cases _ _ _ _ _ _ Htr)
      as (g & Hnet & [[Hst ->]|(Hst & Hasg & _)]).
    { simpl. apply sublist_nil_l. }
    rewrite Hasg, flow_assignments_pairs.
    etrans; [apply sublist_map, used_arcs_sublist|].
    apply build_network_ok in Hnet.
    rewrite (built_arcs _ _ _ _ _ _ _ Hnet). apply tier_arcs_sublist. }
  split_and!; [done| |].
  - eapply sublist_NoDup; [apply all_pairs_NoDup|done].
  - apply sublist_length in Hsub.
    by rewrite length_map, all_pairs_length in Hsub.
Qed.

(** The tier of two TAs and three courses, with a solver that claims a flow
    of 7 on each of the six arcs. *)
Lemma no_pair_assigned_twice_witness :
  exists tr,
    solve_tier (flooding_solver 7) cfg_stride 0 2 [7; 7; 7] = Ok tr /\
    length (tr_assignments tr) = 6%nat /\
    NoDup (map asg_pair (tr_assignments tr)).
Proof.
  destruct (solve_tier (flooding_solver 7) cfg_stride 0 2 [7; 7; 7]) as [tr|e] eqn:Htr;
    [|vm_compute in Htr; discriminate].
  exists tr. split; [done|].
  destruct (no_pair_assigned_twice _ _ _ _ _ _ Htr) as (_ & Hnd & _).
  split; [|done]. vm_compute in Htr. injection Htr as <-. reflexivity.
Defined.

(** ** The report of unused capacity *)

Lemma assigned_to_ta_snoc i asgs x :
  assigned_to_ta i (asgs ++ [x])
  = (assigned_to_ta i asgs + (if decide (asg_ta x = i) then 1 else 0))%nat.
Proof.
  unfold assigned_to_ta. rewrite filter_app, length_app.
  rewrite filter_cons, filter_nil. by case_decide.
Qed.

Lemma assigned_to_ta_prefix i nGroup flow (arcs : list Arc) k :
  (assigned_to_ta i (map (assignment_of nGroup) (used_arcs flow 0 (take k arcs)))
   <= assigned_to_ta i (map (assignment_of nGroup) (used_arcs flow 0 arcs)))%nat.
Proof.
  rewrite <- (take_drop k arcs) at 2.
  rewrite used_arcs_app, map_app. unfold assigned_to_ta.
  rewrite filter_app, length_app. lia.
Qed.

(** As long as no counter wraps, the extraction leaves to each TA its
    availability less the assignments made to it. *)
Lemma extraction_avail g flow nGroup (sl av : list Z) :
  (forall a, a ∈ smcf_arcs g ->
     (arc_tail a < length av)%nat /\ (nGroup <= arc_head a)%nat /\
     (arc_head a - nGroup < length sl)%nat) ->
  (forall i a, av !! i = Some a ->
     a < 2 ^ 63 /\
     - 2 ^ 63 <= a - Z.of_nat (assigned_to_ta i (flow_assignments g flow nGroup))) ->
  exists st,
    for_each (range (num_arcs g)) (extract_body g flow nGroup)
      (mkExtraction sl av []) = Ok st /\
    ex_assignments st = flow_assignments g flow nGroup /\
    length (ex_avail st) = length av /\
    forall i a, av !! i = Some a ->
      ex_avail st !! i = Some (a - Z.of_nat (assigned_to_ta i (ex_assignments st))).
Proof.
  intros Hshape Hfit. unfold flow_assignments in *.
  set (A k := map (assignment_of nGroup) (used_arcs flow 0 (take k (smcf_arcs g)))).
  destruct (for_range_total (extract_body g flow nGroup) (fun k st =>
    ex_assignments st = A k /\
    length (ex_spots st) = length sl /\
    length (ex_avail st) = length av /\
    forall i a, av !! i = Some a ->
      ex_avail st !! i = Some (a - Z.of_nat (assigned_to_ta i (A k))))
    (num_arcs g) (mkExtraction sl av [])) as (st & Hrun & Hasg & _ & Hla & Hacc).
  - split_and!; [done|done|done|]. intros i a Ha. simpl.
    unfold A, assigned_to_ta. simpl. rewrite Ha. f_equal. lia.
  - intros k t Hk (Hasg & Hls & Hla & Hacc).
    destruct (lookup_lt_is_Some_2 (smcf_arcs g) k Hk) as [a Ha].
    assert (HA : A (S k) = A k ++ (if 0 <? flow k then [assignment_of nGroup a] else [])).
    { unfold A. rewrite (used_arcs_take_succ _ _ _ _ Ha), map_app.
      by destruct (0 <? flow k). }
    unfold extract_body. destruct (0 <? flow k) eqn:Hpos.
    + destruct (Hshape a) as (Htail & Hhead & Hcourse).
      { apply list_elem_of_lookup. eauto. }
      apply getitem_ok in Ha as Hget. rewrite Hget. simpl.
      replace (Z.of_nat (arc_head a) - Z.of_nat nGroup)
        with (Z.of_nat (arc_head a - nGroup)) by lia.
      destruct (lookup_lt_is_Some_2 (ex_spots t) (arc_head a - nGroup)) as [v Hv];
        [lia|].
      destruct (lookup_lt_is_Some_2 (ex_avail t) (arc_tail a)) as [w Hw]; [lia|].
      rewrite (decrement_nat _ _ _ Hv). simpl.
      rewrite (decrement_nat _ _ _ Hw). simpl.
      eexists. split; [done|]. simpl.
      assert (Hthis : assignment_of nGroup a
                = mkAssignment (arc_tail a) (Z.of_nat (arc_head a - nGroup))
                    (arc_unit_cost a)).
      { unfold assignment_of. f_equal. lia. }
      split_and!.
      * by rewrite HA, Hasg, Hthis.
      * by rewrite length_insert.
      * by rewrite length_insert.
      * intros i x Hx. rewrite HA, assigned_to_ta_snoc, Hthis. simpl.
        destruct (decide (arc_tail a = i)) as [<-|Hne].
        -- rewrite list_lookup_insert_eq by (by eapply lookup_lt_Some).
           rewrite (Hacc _ _ Hx) in Hw. injection Hw as <-.
           destruct (Hfit _ _ Hx) as [Hx63 Htot].
           pose proof (assigned_to_ta_prefix (arc_tail a) nGroup flow
                         (smcf_arcs g) (S k)) as Hpre.
           fold (A (S k)) in Hpre.
           rewrite HA, assigned_to_ta_snoc, Hthis in Hpre. simpl in Hpre.
           rewrite decide_True in Hpre by done.
           rewrite wrap64_id by lia. f_equal. lia.
        -- rewrite list_lookup_insert_ne by done.
           rewrite (Hacc _ _ Hx). f_equal. lia.
    + exists t. split; [done|]. rewrite HA, app_nil_r. done.
  - exists st. unfold A in Hasg, Hacc. unfold num_arcs in Hasg, Hacc.
    rewrite firstn_all in Hasg, Hacc.
    split_and!; [done|done|done|].
    intros i a Ha. rewrite Hasg. by apply Hacc.
Qed.

Lemma report_loop_ok g (av : list Z) nGroup out :
  for_each (range nGroup) (report_body g av) [] = Ok out ->
  out = flat_map (fun i =>
          match av !! i with
          | Some a => if 0 <? a then [(i, supply g i)] else []
          | None => []
          end) (range nGroup).
Proof.
  apply (for_range_inv _ (fun k o =>
    o = flat_map (fun i =>
          match av !! i with
          | Some a => if 0 <? a then [(i, supply g i)] else []
          | None => []
          end) (range k))); [done|].
  intros k t t' Hk -> Hbody. unfold report_body in Hbody.
  apply bind_ok_inv in Hbody as (a & Ha & Hbody). apply getitem_ok in Ha.
  rewrite flat_map_range_succ, Ha.
  destruct (0 <? a); injection Hbody as <-; [done|by rewrite app_nil_r].
Qed.

(** X8. After a tier solved to a feasible flow, with availabilities that
    are not negative, the tier reports exactly the TAs whose availability
    exceeds the assignments they got, in TA order, and the number it prints
    for each is the TA's whole availability (the supply of its node), not
    what is left of it. *)
Theorem unused_report_prints_whole_availability solver cfg iStart nGroup sl g tr :
  tier_network cfg iStart nGroup sl = Ok g ->
  sol_status (solver g) = OPTIMAL ->
  feasible_flow g (sol_flow (solver g)) ->
  Forall int64_nonneg (slice (avail cfg) iStart (iStart + nGroup)) ->
  solve_tier solver cfg iStart nGroup sl = Ok tr ->
  tr_unused tr
  = unused_report (slice (avail cfg) iStart (iStart + nGroup)) (tr_assignments tr)
      nGroup.
Proof.
  intros Hnet Hst Hfeas Hav Htr.
  pose proof (build_network_ok _ _ _ _ _ _ _ Hnet) as Hb.
  destruct (built_lengths _ _ _ _ _ _ _ Hb) as [Hlav Hlsl].
  destruct (extraction_avail g (sol_flow (solver g)) nGroup sl
              (slice (avail cfg) iStart (iStart + nGroup)))
    as (st & Hrun & Hasg & Hla & Hacc).
  { intros a Ha. destruct (built_shape _ _ _ _ _ _ _ _ Hb Ha) as (? & ? & ? & _).
    lia. }
  { intros i a Ha.
    assert (Hr : int64_nonneg a) by (eapply Forall_lookup_1; eauto).
    pose proof (feasible_ta_bound _ _ _ _ _ _ _ _ _ _ Hb Hfeas Ha (proj1 Hr)).
    unfold int64_nonneg in Hr. lia. }
  unfold tier_network in Hnet. unfold solve_tier in Htr.
  rewrite Hnet in Htr. simpl in Htr. rewrite decide_True in Htr by done.
  rewrite Hrun in Htr. simpl in Htr.
  apply bind_ok_inv in Htr as (out & Hrep & Htr). injection Htr as <-. simpl.
  apply report_loop_ok in Hrep. subst out. unfold unused_report.
  unfold range. apply flat_map_ext. intros i.
  destruct (decide (i < nGroup)%nat) as [Hi|Hi].
  - destruct (built_ta_supply _ _ _ _ _ _ _ Hb i Hi) as (a & Ha & Hs).
    rewrite Ha, (Hacc _ _ Ha). unfold supply. by rewrite Hs.
  - pose proof (slice_length_le (avail cfg) iStart (iStart + nGroup)).
    rewrite !lookup_ge_None_2; [done|lia|lia].
Qed.

(** One TA of availability 2 gets one course: the report says 2. *)
Lemma unused_report_prints_whole_availability_witness :
  exists tr,
    solve_tier solver_spare cfg_spare 0 1 [1; 0] = Ok tr /\
    tr_assignments tr = [mkAssignment 0 0 0] /\
    tr_unused tr = [(0%nat, 2)].
Proof.
  destruct (solve_tier solver_spare cfg_spare 0 1 [1; 0]) as [tr|e] eqn:Htr;
    [|vm_compute in Htr; discriminate].
  exists tr. split; [done|].
  assert (Hrep : tr_unused tr
            = unused_report (slice (avail cfg_spare) 0 (0 + 1)) (tr_assignments tr) 1).
  { apply (unused_report_prints_whole_availability solver_spare cfg_spare 0 1
             [1; 0] net_spare tr).
    - vm_compute. reflexivity.
    - vm_compute. reflexivity.
    - apply table_solver_contract. vm_compute. reflexivity.
    - repeat constructor; done.
    - exact Htr. }
  vm_compute in Htr. injection Htr as <-. split; reflexivity.
Defined.

(** ** The tiers in sequence *)

(** X9. The tiers run one after the other: running the tiers of a list
    followed by those of a second list is running the first list and, if
    none of its tiers raised, the second list from the position and with the
    slots array the first left; if a tier of the first list raised, nothing
    of the second list runs. *)
Theorem tiers_run_in_sequence solver cfg groups1 groups2 iStart sl :
  solve_tiers solver cfg (groups1 ++ groups2) iStart sl
  = match run_raised (solve_tiers solver cfg groups1 iStart sl) with
    | Some e => solve_tiers solver cfg groups1 iStart sl
    | None =>
        mkRun
          (run_tiers (solve_tiers solver cfg groups1 iStart sl)
           ++ run_tiers (solve_tiers solver cfg groups2 (iStart + sum_list groups1)
                           (run_spots (solve_tiers solver cfg groups1 iStart sl))))
          (run_spots (solve_tiers solver cfg groups2 (iStart + sum_list groups1)
                        (run_spots (solve_tiers solver cfg groups1 iStart sl))))
          (run_raised (solve_tiers solver cfg groups2 (iStart + sum_list groups1)
                         (run_spots (solve_tiers solver cfg groups1 iStart sl))))
    end.
Proof.
  revert iStart sl. induction groups1 as [|nGroup groups1 IH]; intros iStart sl.
  - simpl. rewrite Nat.add_0_r. by destruct (solve_tiers solver cfg groups2 iStart sl).
  - simpl. destruct (solve_tier solver cfg iStart nGroup sl) as [tr|e]; simpl; [|done].
    rewrite IH. rewrite Nat.add_assoc.
    by destruct (solve_tiers solver cfg groups1 (iStart + nGroup) (tr_spots tr))
      as [tiers1 spots1 [e|]].
Qed.

(** X10. The slots only go down from tier to tier: with a solver that
    keeps the contract and slot counts that are not negative to begin with,
    the array printed after a tier is, course by course, at most the array
    the tier started from (the configuration's for the first tier, the one
    printed by the tier before for the others). *)
Theorem slots_never_increase solver cfg groups iStart sl k before after j a b :
  solver_contract solver ->
  Forall int64_nonneg sl ->
  (sl :: map tr_spots (run_tiers (solve_tiers solver cfg groups iStart sl))) !! k
  = Some before ->
  (sl :: map tr_spots (run_tiers (solve_tiers solver cfg groups iStart sl))) !! S k
  = Some after ->
  before !! j = Some a ->
  after !! j = Some b ->
  0 <= b <= a.
Proof.
  intros Hcontract. revert iStart sl k.
  induction groups as [|nGroup groups IH]; intros iStart sl k Hsl Hk HSk Ha Hb;
    simpl in *; [done|].
  destruct (solve_tier solver cfg iStart nGroup sl) as [tr|e] eqn:Htr;
    simpl in *; [|done].
  destruct (solve_tier_slots solver Hcontract _ _ _ _ _ Hsl Htr) as (Hlen & Hnn & Hacc).
  destruct k as [|k]; simpl in *.
  - injection Hk as <-. injection HSk as <-.
    destruct (Hacc j a Ha) as [Hle Hj]. rewrite Hj in Hb. injection Hb as <-. lia.
  - by apply (IH (iStart + nGroup)%nat (tr_spots tr) k).
Qed.

(** The two-tier example: course 0 goes from 1 slot to none in the PhD
    tier. *)
Lemma slots_never_increase_witness : 0 <= 0 <= 1.
Proof.
  apply (slots_never_increase solver_two_tiers cfg_two_tiers [1; 1; 0]%nat 0
           [1; 2] 0 [1; 2] [0; 2] 0 1 0).
  - apply table_solver_contract.
  - repeat constructor; done.
  - reflexivity.
  - vm_compute. reflexivity.
  - reflexivity.
  - reflexivity.
Defined.

(** X11. A tier without TAs needs nothing but the slots array: when the
    array has an entry for every course the tier ends normally, assigns
    nothing, reports nothing and leaves the array as it was, whatever the
    solver answers; when the array is shorter than [numClasses] even such
    a tier raises [IndexError]. *)
Theorem empty_tier solver cfg iStart sl :
  ((numClasses cfg <= length sl)%nat ->
   exists tr,
     solve_tier solver cfg iStart 0 sl = Ok tr /\
     tr_assignments tr = [] /\ tr_unused tr = [] /\ tr_spots tr = sl) /\
  ((length sl < numClasses cfg)%nat ->
   solve_tier solver cfg iStart 0 sl = Raise IndexError).
Proof.
  split.
  - intros Hsl.
    destruct (build_network_total
                (slice (studentPrefs cfg) (iStart * numClasses cfg)
                   ((iStart + 0) * numClasses cfg))
                (slice (coursePrefs cfg) (iStart * numClasses cfg)
                   ((iStart + 0) * numClasses cfg))
                (slice (avail cfg) iStart (iStart + 0)) sl 0 (numClasses cfg))
      as [g Hnet]; [intros i j Hi; lia|lia|done|].
    pose proof (build_network_ok _ _ _ _ _ _ _ Hnet) as Hb.
    assert (Harcs : smcf_arcs g = []) by (by rewrite (built_arcs _ _ _ _ _ _ _ Hb)).
    unfold solve_tier. rewrite Hnet. simpl.
    unfold num_arcs. rewrite Harcs. simpl.
    destruct (decide (sol_status (solver g) = OPTIMAL)); eexists; split; done.
  - intros Hsl. apply solve_tier_raise.
    destruct (tier_network cfg iStart 0 sl) as [g|e] eqn:Hnet.
    + apply build_network_ok, built_lengths in Hnet. lia.
    + unfold tier_network, build_network in Hnet.
      apply bind_raise_inv in Hnet as [H|(h & _ & H)]; [discriminate|].
      apply for_range_raise_inv in H as (k & t & _ & H).
      by rewrite (course_body_raise _ _ _ _ _ H).
Qed.

(** The third tier of the two-tier example has no TA. *)
Lemma empty_tier_witness :
  exists tr,
    solve_tier solver_two_tiers cfg_two_tiers 2 0 [0; 1] = Ok tr /\
    tr_assignments tr = [] /\ tr_unused tr = [] /\ tr_spots tr = [0; 1].
Proof.
  apply (proj1 (empty_tier solver_two_tiers cfg_two_tiers 2 [0; 1])).
  simpl. lia.
Defined.

(** ** The preference entries a tier reads *)

Lemma for_each_ext {St X : Type} (xs : list X) (body body' : St -> X -> result St) s :
  (forall t x, x ∈ xs -> body t x = body' t x) ->
  for_each xs body s = for_each xs body' s.
Proof.
  revert s. induction xs as [|x xs IH]; intros s Hext; simpl; [done|].
  rewrite (Hext s x) by apply list_elem_of_here.
  destruct (body' s x) as [s'|e]; simpl; [|done].
  apply IH. intros t y Hy. apply Hext. by apply list_elem_of_further.
Qed.

Lemma getitem_take {A : Type} (l l' : list A) (n i : nat) :
  take n l = take n l' -> (i < n)%nat -> getitem l i = getitem l' i.
Proof.
  intros Htake Hi. unfold getitem.
  by rewrite <- (lookup_take_lt l n i), <- (lookup_take_lt l' n i), Htake.
Qed.

(** X12. The construction reads the preference slices only up to position
    [(nGroup - 1) * nGroup + numClasses - 1]: two pairs of slices that agree
    up to there give the same result, network or exception, whatever stands
    after. In a tier of more than one TA and fewer TAs than courses that is
    short of the [nGroup * numClasses] entries of the slice, so the last
    entries of the tier are never read. *)
Theorem entries_past_last_lookup_unread sp sp' cp cp' av sl nGroup numClasses :
  take ((nGroup - 1) * nGroup + numClasses) sp
  = take ((nGroup - 1) * nGroup + numClasses) sp' ->
  take ((nGroup - 1) * nGroup + numClasses) cp
  = take ((nGroup - 1) * nGroup + numClasses) cp' ->
  build_network sp cp av sl nGroup numClasses
  = build_network sp' cp' av sl nGroup numClasses /\
  ((1 < nGroup)%nat -> (nGroup < numClasses)%nat ->
   ((nGroup - 1) * nGroup + numClasses < nGroup * numClasses)%nat).
Proof.
  intros Hsp Hcp. split; [|intros; nia].
  unfold build_network.
  rewrite (for_each_ext (range nGroup) (student_body sp cp av nGroup numClasses)
             (student_body sp' cp' av nGroup numClasses)); [done|].
  intros t i Hi. apply list_elem_of_In, in_seq in Hi.
  unfold student_body.
  rewrite (for_each_ext (range numClasses) (class_body sp cp nGroup i)
             (class_body sp' cp' nGroup i)); [done|].
  intros t' j Hj. apply list_elem_of_In, in_seq in Hj.
  unfold class_body, totalCost.
  assert (Hidx : (i * nGroup + j < (nGroup - 1) * nGroup + numClasses)%nat) by nia.
  by rewrite (getitem_take sp sp' _ _ Hsp Hidx), (getitem_take cp cp' _ _ Hcp Hidx).
Qed.

(** Two TAs and three courses: what TA 1 says of course 2, the entry at
    position 5, changes nothing. *)
Lemma entries_past_last_lookup_unread_witness :
  build_network [0; 25; 50; 100; 25; 0]%Q [0; 0; 0; 0; 0; 0]%Q [1; 1] [1; 1; 1] 2 3
  = build_network [0; 25; 50; 100; 25; rankToCost Unwilling]%Q
      [0; 0; 0; 0; 0; rankToCost Unwilling]%Q [1; 1] [1; 1; 1] 2 3.
Proof.
  apply (entries_past_last_lookup_unread
           [0; 25; 50; 100; 25; 0]%Q [0; 25; 50; 100; 25; rankToCost Unwilling]%Q
           [0; 0; 0; 0; 0; 0]%Q [0; 0; 0; 0; 0; rankToCost Unwilling]%Q);
    reflexivity.
Defined.

(** ** The cost table and the threshold *)

(** X13. With the costs of the table, the sum of a TA's cost and a
    course's cost passes the test [totalCost < 1000] exactly when neither
    of the two ranks is the unwilling one; the sum of two willing ranks is
    at most 200. *)
Theorem feasible_iff_both_willing r1 r2 :
  (Qltb (rankToCost r1 + rankToCost r2) threshold = true <->
   r1 <> Unwilling /\ r2 <> Unwilling) /\
  (r1 <> Unwilling -> r2 <> Unwilling -> (rankToCost r1 + rankToCost r2 <= 200)%Q).
Proof.
  split.
  - destruct r1, r2; vm_compute; split; try done; intros [? ?]; done.
  - destruct r1, r2; intros H1 H2; try done; vm_compute; discriminate.
Qed.

(** * Properties of [makeRandData] *)

Lemma map_result_ok {A B : Type} (f : A -> result B) (P : B -> Prop) (l : list A) :
  (forall x, x ∈ l -> exists y, f x = Ok y /\ P y) ->
  exists l', map_result f l = Ok l' /\ length l' = length l /\ Forall P l'.
Proof.
  induction l as [|x l IH]; intros Hf; simpl.
  - exists []. by split_and!.
  - destruct (Hf x) as (y & Hy & HP); [apply list_elem_of_here|].
    destruct IH as (l' & Hl' & Hlen & HPl').
    { intros z Hz. apply Hf. by apply list_elem_of_further. }
    rewrite Hy, Hl'. simpl. exists (y :: l').
    split_and!; [done|simpl; lia|by constructor].
Qed.

Lemma costs_lookup (i : nat) :
  (i < 5)%nat -> exists c, getitem costs i = Ok c /\ c ∈ costs.
Proof.
  intros Hi. destruct (getitem_lt costs i) as [c Hc]; [simpl; lia|].
  exists c. split; [done|]. apply getitem_ok in Hc.
  by eapply list_elem_of_lookup_2.
Qed.

Lemma clipped_spot (z : Z) :
  2 <= (if (if 8 <? z then 8 else z) <? 2 then 2 else (if 8 <? z then 8 else z)) <= 8.
Proof.
  destruct (Z.ltb_spec 8 z); [simpl; lia|].
  destruct (Z.ltb_spec z 2); lia.
Qed.

(** With draws in the ranges of the library, the generator ends normally
    and its configuration has the sizes and the values the code asks for. *)
Lemma makeRandData_ok d :
  draws_in_range d ->
  exists cfg,
    makeRandData d = Ok cfg /\
    numClasses cfg = 100%nat /\ numPhDs cfg = 45%nat /\
    numMSCs cfg = 65%nat /\ numOther cfg = 30%nat /\
    length (spots cfg) = 100%nat /\
    length (avail cfg) = 140%nat /\
    length (studentPrefs cfg) = (100 * 140)%nat /\
    length (coursePrefs cfg) = (100 * 140)%nat /\
    Forall (fun s => 2 <= s <= 8) (spots cfg) /\
    Forall (fun a => a = 1 \/ a = 2) (avail cfg) /\
    Forall (fun c => c ∈ costs) (studentPrefs cfg) /\
    Forall (fun c => c ∈ costs) (coursePrefs cfg).
Proof.
  intros [Hint Hstudent Hcourse]. unfold makeRandData. cbv zeta.
  destruct (map_result_ok (getitem costs) (fun c => c ∈ costs)
              (map (draw_choice_student d) (range (100 * (45 + 65 + 30)))))
    as (sp & Hsp & Hlsp & HPsp).
  { intros i Hi. apply list_elem_of_In, in_map_iff in Hi as (k & <- & _).
    by apply costs_lookup. }
  destruct (map_result_ok (getitem costs) (fun c => c ∈ costs)
              (map (draw_choice_course d) (range (100 * (45 + 65 + 30)))))
    as (cp & Hcp & Hlcp & HPcp).
  { intros i Hi. apply list_elem_of_In, in_map_iff in Hi as (k & <- & _).
    by apply costs_lookup. }
  rewrite Hsp. cbn [bind]. rewrite Hcp. cbn [bind].
  eexists. split; [reflexivity|].
  cbn [numClasses numPhDs numMSCs numOther spots avail studentPrefs coursePrefs].
  unfold range in *. rewrite length_map, length_seq in Hlsp, Hlcp.
  split_and!;
    try (rewrite ?length_map, ?length_seq, ?Hlsp, ?Hlcp; lia); try done.
  - rewrite !map_map. apply Forall_forall. intros s Hs.
    apply list_elem_of_In, in_map_iff in Hs as (k & <- & _). apply clipped_spot.
  - apply Forall_forall. intros a Ha.
    apply list_elem_of_In, in_map_iff in Ha as (k & <- & _).
    specialize (Hint k). lia.
Qed.

(** X14. Whatever the generator draws within the library's ranges, it ends
    normally with a well-formed configuration of 100 courses and tiers of
    45, 65 and 30 TAs, in which every course has 2 to 8 slots, every TA an
    availability of 1 or 2, and every preference entry is a cost of the
    table. *)
Theorem generated_configuration_is_well_formed d :
  draws_in_range d ->
  exists cfg,
    makeRandData d = Ok cfg /\
    numClasses cfg = 100%nat /\ numTAs cfg = [45; 65; 30]%nat /\
    well_formed cfg /\
    Forall (fun s => 2 <= s <= 8) (spots cfg) /\
    Forall (fun a => a = 1 \/ a = 2) (avail cfg) /\
    Forall (fun c => c ∈ costs) (studentPrefs cfg) /\
    Forall (fun c => c ∈ costs) (coursePrefs cfg).
Proof.
  intros Hd.
  destruct (makeRandData_ok d Hd)
    as (cfg & Hcfg & Hnc & Hp & Hm & Ho & Hls & Hla & Hlsp & Hlcp
        & Hs & Ha & Hsp & Hcp).
  exists cfg. split_and!; try done.
  - unfold numTAs. by rewrite Hp, Hm, Ho.
  - assert (H63 : 9 <= 2 ^ 63) by (vm_compute; discriminate).
    split; unfold totTAs; rewrite ?Hp, ?Hm, ?Ho, ?Hnc; try lia.
    + eapply Forall_impl; [exact Ha|]. intros a [->| ->]; unfold int64_nonneg; lia.
    + eapply Forall_impl; [exact Hs|]. intros s Hr. simpl in Hr.
      unfold int64_nonneg. lia.
Qed.

(** Draws that are all the same: a normal value of 5.5, availability 1,
    everybody most wanted. *)
Lemma generated_configuration_is_well_formed_witness :
  exists cfg,
    makeRandData (constant_draws (11 # 2) 1 0 0) = Ok cfg /\
    numClasses cfg = 100%nat /\ well_formed cfg.
Proof.
  destruct (generated_configuration_is_well_formed (constant_draws (11 # 2) 1 0 0))
    as (cfg & Hcfg & Hnc & _ & Hwf & _).
  - split; intros k; simpl; lia.
  - exists cfg. by split_and!.
Defined.

(** * Generating and solving *)

Lemma solve_tiers_spots_length solver cfg groups iStart sl :
  length (run_spots (solve_tiers solver cfg groups iStart sl)) = length sl.
Proof.
  revert iStart sl. induction groups as [|nGroup groups IH]; intros iStart sl;
    simpl; [done|].
  destruct (solve_tier solver cfg iStart nGroup sl) as [tr|e] eqn:Htr; simpl; [|done].
  rewrite IH. by eapply solve_tier_spots_length.
Qed.

(** X15. A generated configuration always runs to the end: whatever the
    generator draws within the library's ranges and whatever the solver
    answers, [makeRandData(); solve()] raises nothing and prints the result
    of each of its three tiers. Each of the tiers (45, 65 and 30 TAs) has
    fewer TAs than the 100 courses, so no lookup leaves its slice. *)
Theorem generated_run_never_raises d solver :
  draws_in_range d ->
  exists cfg r,
    makeRandData d = Ok cfg /\
    main d solver = Ok r /\
    r = solve solver cfg /\
    run_raised r = None /\
    length (run_tiers r) = 3%nat.
Proof.
  intros Hd.
  destruct (makeRandData_ok d Hd)
    as (cfg & Hcfg & Hnc & Hp & Hm & Ho & Hls & Hla & Hlsp & Hlcp & _ & _
        & Htsp & Htcp).
  exists cfg, (solve solver cfg). unfold main. rewrite Hcfg. cbn [bind].
  assert (Hnone : run_raised (solve solver cfg) = None).
  { unfold solve, numTAs. rewrite Hp, Hm, Ho.
    apply solve_tiers_total; [exact Htsp|exact Htcp|..];
      rewrite ?Hnc, ?Hlsp, ?Hlcp, ?Hla, ?Hls; try (simpl sum_list; lia).
    repeat constructor; lia. }
  split_and!; [done|done|done|done|].
  by apply (proj1 (solve_tiers_results solver cfg (numTAs cfg) 0 (spots cfg))).
Qed.

(** Constant draws and a solver that claims a flow of 7 on every arc. *)
Lemma generated_run_never_raises_witness :
  exists r,
    main (constant_draws (11 # 2) 1 0 0) (flooding_solver 7) = Ok r /\
    run_raised r = None /\
    length (run_tiers r) = 3%nat.
Proof.
  destruct (generated_run_never_raises (constant_draws (11 # 2) 1 0 0)
              (flooding_solver 7)) as (cfg & r & _ & Hmain & _ & Hnone & Hlen).
  - split; intros k; simpl; lia.
  - exists r. by split_and!.
Defined.

(** X16. On a generated configuration and with a solver that keeps the
    contract, the run ends with 0 to 8 slots in every course, no course has
    been given more than 8 TAs and no TA more than 2 courses. *)
Theorem generated_run_respects_capacities d solver r :
  draws_in_range d ->
  solver_contract solver ->
  main d solver = Ok r ->
  Forall (fun s => 0 <= s <= 8) (run_spots r) /\
  (forall j, (j < 100)%nat -> (course_total j (run_tiers r) <= 8)%nat) /\
  (forall ta, (ta < 140)%nat ->
     (ta_total [45; 65; 30]%nat (run_tiers r) ta <= 2)%nat).
Proof.
  intros Hd Hcontract Hmain.
  destruct (makeRandData_ok d Hd)
    as (cfg & Hcfg & Hnc & Hp & Hm & Ho & Hls & Hla & _ & _ & Hs & Ha & _).
  unfold main in Hmain. rewrite Hcfg in Hmain. cbn [bind] in Hmain.
  injection Hmain as <-.
  assert (H63 : 9 <= 2 ^ 63) by (vm_compute; discriminate).
  assert (Hnn : Forall int64_nonneg (spots cfg)).
  { eapply Forall_impl; [exact Hs|]. intros s Hr. simpl in Hr.
    unfold int64_nonneg. lia. }
  unfold solve.
  destruct (solve_tiers_slots solver Hcontract cfg (numTAs cfg) 0 (spots cfg) Hnn)
    as (Hfin & _ & Hacc).
  assert (Hslot : forall j x, spots cfg !! j = Some x ->
            0 <= x - Z.of_nat (course_total j
                     (run_tiers (solve_tiers solver cfg (numTAs cfg) 0 (spots cfg))))
            /\ x <= 8).
  { intros j x Hx. split.
    - pose proof (Forall_lookup_1 _ _ _ _ Hfin (Hacc j x Hx)) as Hr.
      unfold int64_nonneg in Hr. lia.
    - pose proof (Forall_lookup_1 _ _ _ _ Hs Hx) as Hr. simpl in Hr. lia. }
  split_and!.
  - apply Forall_lookup. intros j y Hy.
    destruct (lookup_lt_is_Some_2 (spots cfg) j) as [x Hx].
    { rewrite <- (solve_tiers_spots_length solver cfg (numTAs cfg) 0 (spots cfg)).
      by eapply lookup_lt_Some. }
    destruct (Hslot j x Hx) as [Hlo Hhi].
    rewrite (Hacc j x Hx) in Hy. apply (inj Some) in Hy. rewrite <- Hy.
    cbv beta. lia.
  - intros j Hj.
    destruct (lookup_lt_is_Some_2 (spots cfg) j) as [x Hx]; [lia|].
    destruct (Hslot j x Hx) as [Hlo Hhi]. lia.
  - intros ta Hta.
    destruct (lookup_lt_is_Some_2 (avail cfg) ta) as [a Hav]; [lia|].
    pose proof (Forall_lookup_1 _ _ _ _ Ha Hav) as Hr. simpl in Hr.
    pose proof (solve_tiers_ta solver Hcontract cfg (numTAs cfg) 0 (spots cfg) ta a
                  Hav ltac:(lia)) as Hle.
    replace [45; 65; 30]%nat with (numTAs cfg)
      by (unfold numTAs; by rewrite Hp, Hm, Ho).
    lia.
Qed.

(** Draws with one willing pair and a solver that assigns it: the PhD tier
    gives TA 0 to course 0, which ends with 5 of its 6 slots. *)
Lemma generated_run_respects_capacities_witness :
  exists r,
    main sparse_draws solver_generated = Ok r /\
    (tr_status <$> run_tiers r !! 0%nat) = Some OPTIMAL /\
    (tr_assignments <$> run_tiers r !! 0%nat) = Some [mkAssignment 0 0 0] /\
    course_total 0 (run_tiers r) = 1%nat /\
    run_spots r !! 0%nat = Some 5 /\
    run_spots r !! 1%nat = Some 6 /\
    Forall (fun s => 0 <= s <= 8) (run_spots r) /\
    (course_total 0 (run_tiers r) <= 8)%nat /\
    (ta_total [45; 65; 30]%nat (run_tiers r) 0 <= 2)%nat.
Proof.
  assert (Hd : draws_in_range sparse_draws).
  { split; intros k; simpl; try lia; destruct (k =? 0)%nat; lia. }
  assert (Hrun : (r <- main sparse_draws solver_generated ;;
                  Ok (tr_status <$> run_tiers r !! 0%nat,
                      tr_assignments <$> run_tiers r !! 0%nat,
                      course_total 0 (run_tiers r),
                      run_spots r !! 0%nat, run_spots r !! 1%nat))
                 = Ok (Some OPTIMAL, Some [mkAssignment 0 0 0], 1%nat, Some 5, Some 6))
    by (vm_compute; reflexivity).
  destruct (main sparse_draws solver_generated) as [r|e] eqn:Hmain;
    [|discriminate Hrun].
  cbn [bind] in Hrun. injection Hrun as Hstatus Hasg Htotal Hs0 Hs1.
  exists r.
  destruct (generated_run_respects_capacities sparse_draws solver_generated r Hd
              (table_solver_contract _) Hmain) as (Hspots & Hcourse & Hta).
  split_and!; [reflexivity|exact Hstatus|exact Hasg|exact Htotal|exact Hs0|exact Hs1
              |exact Hspots|apply Hcourse; lia|apply Hta; lia].
Defined.
